(** * FamFlix audio-job recovery scripts: a shallow embedding

    The repository keeps the state of the per-section audio-synthesis jobs in
    an SQLite file ([famflix.db]).  The Python scripts under [src/] open that
    file, run one or two SQL statements and print what they found:

    - [recover_audio.py]       force-complete of a stuck section,
    - [reset_stuck_audio.py]   force-fail of the stuck sections of a story,
    - [check_story_audio.py]   status listing of a story's section audio,
    - [check_story_narrations.py] (and [_v2])  status listing of narrations,
    - [check_recent.py]        the three most recent stories and generations,
    - [verify_sections.py]     the sections of a story found by its slug.

    The story endpoint of [ml_api_v2.py] is modelled for its exception
    handling.

    A table is modelled as the list of its rows in scan order, a nullable
    column as an [option], a timestamp (integer milliseconds) as a [Z], and a
    script as a function from the database to the database after the script
    together with what the script reports.  Errors raised by SQLite itself,
    which every script catches and prints, are outside the model. *)

From Stdlib Require Import ZArith String List Lia Sorted Permutation.
From stdpp Require Import base option relations list strings.
Import ListNotations.
Local Open Scope Z_scope.
Local Open Scope string_scope.

(** ** The persisted schema *)

Module Schema.

(** Modelled from the spec: the [CREATE TABLE] statements are not among the
    scripts.  The column names of the three records below are the ones the
    SQL of the scripts uses; their types and nullability follow section 6,
    and the key columns ([section_id], [voice_id], [id], [story_id]) are
    non-null text.  The scripts compare [status] with ['PROCESSING'] and
    write ['COMPLETE'] and ['ERROR']; the fourth value is the initial state
    of section 4.2. *)
Inductive Status : Type := PENDING | PROCESSING | COMPLETE | ERROR.

Definition status_eqb (a b : Status) : bool :=
  match a, b with
  | PENDING, PENDING | PROCESSING, PROCESSING
  | COMPLETE, COMPLETE | ERROR, ERROR => true
  | _, _ => false
  end.

(** One row of [story_audio]: the job of one (section, voice) pair. *)
Record AudioRow : Type := mkAudioRow {
  sa_section_id : string;
  sa_voice_id : string;
  sa_status : Status;
  sa_audio_url : option string;
  sa_error : option string;
  sa_created_at : Z;
  sa_updated_at : Z;
  sa_completed_at : option Z
}.

(** One row of [story_sections] (the [text] column plays no role here). *)
Record SectionRow : Type := mkSectionRow {
  ss_id : string;
  ss_story_id : string;
  ss_section_index : Z
}.

(** One row of [story_narrations]; [sn_section_index] is the position
    column that [check_story_narrations.py] orders by. *)
Record NarrationRow : Type := mkNarrationRow {
  sn_id : string;
  sn_story_id : string;
  sn_section_index : Z;
  sn_status : Status;
  sn_audio_url : option string;
  sn_error : option string;
  sn_created_at : Z;
  sn_updated_at : Z
}.

(** The database file: the three tables the scripts touch. *)
Record DB : Type := mkDB {
  story_audio : list AudioRow;
  story_sections : list SectionRow;
  story_narrations : list NarrationRow
}.

Definition with_story_audio (db : DB) (sa : list AudioRow) : DB :=
  {| story_audio := sa;
     story_sections := story_sections db;
     story_narrations := story_narrations db |}.

(** The composite key of a job. *)
Definition key_of (r : AudioRow) : string * string :=
  (sa_section_id r, sa_voice_id r).

(** The join condition and story filter shared by the two queries over
    [story_audio sa JOIN story_sections ss ON sa.section_id = ss.id
     WHERE ss.story_id = ?]. *)
Definition joins (story_id : string) (a : AudioRow) (s : SectionRow) : bool :=
  (sa_section_id a =? ss_id s) && (ss_story_id s =? story_id).

End Schema.
Export Schema.

(** ** recover_audio.py: force-complete *)

Module RecoverAudio.

(** [SELECT voice_id FROM story_audio
     WHERE section_id = ? AND status = 'PROCESSING'] followed by
    [fetchone()]: the voice of one matching row, if any.  The query has no
    [ORDER BY], so which matching row SQLite hands back depends on its
    plan; the model takes the first one in stored order, and the properties
    below are stated for whichever voice is read. *)
Definition is_processing_of (section_id : string) (r : AudioRow) : bool :=
  (sa_section_id r =? section_id) && status_eqb (sa_status r) PROCESSING.

Definition select_processing_voice
    (section_id : string) (sa : list AudioRow) : option string :=
  match find (is_processing_of section_id) sa with
  | Some r => Some (sa_voice_id r)
  | None => None
  end.

(** The [SET] clause of the update. *)
Definition set_complete (audio_url : string) (now : Z) (r : AudioRow) : AudioRow :=
  {| sa_section_id := sa_section_id r;
     sa_voice_id := sa_voice_id r;
     sa_status := COMPLETE;
     sa_audio_url := Some audio_url;
     sa_error := sa_error r;
     sa_created_at := sa_created_at r;
     sa_updated_at := now;
     sa_completed_at := Some now |}.

(** [UPDATE story_audio SET status = 'COMPLETE', audio_url = ?,
     updated_at = ?, completed_at = ?
     WHERE section_id = ? AND voice_id = ?]. *)
Definition matches_key (section_id voice_id : string) (r : AudioRow) : bool :=
  (sa_section_id r =? section_id) && (sa_voice_id r =? voice_id).

Definition update_complete
    (audio_url : string) (now : Z) (section_id voice_id : string)
    (sa : list AudioRow) : list AudioRow :=
  map (fun r => if matches_key section_id voice_id r
                then set_complete audio_url now r else r) sa.

(** What the script prints. *)
Inductive Report : Type :=
| NoProcessingEntry            (* "No processing entry found ..." *)
| Recovered (voice_id : string). (* "Found processing entry for voice ..." *)

(** The script: [section_id] and [audio_url] are the constants written at
    its top, [now] is [int(time.time() * 1000)]. *)
Definition recover_audio
    (audio_url : string) (now : Z) (section_id : string) (db : DB) : DB * Report :=
  match select_processing_voice section_id (story_audio db) with
  | None => (db, NoProcessingEntry)
  | Some voice_id =>
      (with_story_audio db
         (update_complete audio_url now section_id voice_id (story_audio db)),
       Recovered voice_id)
  end.

End RecoverAudio.

(** ** reset_stuck_audio.py: force-fail *)

Module ResetStuckAudio.

(** [SELECT sa.section_id FROM story_audio sa
     JOIN story_sections ss ON sa.section_id = ss.id
     WHERE ss.story_id = ? AND sa.status = 'PROCESSING']:
    one output row per joined pair.  The query has no [ORDER BY]; the model
    scans [story_audio] outermost, and the order of the rows is that choice
    of the model, not a promise of the query. *)
Definition select_stuck
    (story_id : string) (ss : list SectionRow) (sa : list AudioRow) : list string :=
  flat_map (fun a =>
    flat_map (fun s =>
      if joins story_id a s && status_eqb (sa_status a) PROCESSING
      then [sa_section_id a] else []) ss) sa.

Definition admin_message : string := "Processing timed out (reset by admin)".

(** The [SET] clause of the update. *)
Definition set_error (now : Z) (r : AudioRow) : AudioRow :=
  {| sa_section_id := sa_section_id r;
     sa_voice_id := sa_voice_id r;
     sa_status := ERROR;
     sa_audio_url := sa_audio_url r;
     sa_error := Some admin_message;
     sa_created_at := sa_created_at r;
     sa_updated_at := now;
     sa_completed_at := sa_completed_at r |}.

(** [UPDATE story_audio SET status = 'ERROR', error = '...', updated_at = ?
     WHERE section_id = ?]. *)
Definition update_error
    (now : Z) (section_id : string) (sa : list AudioRow) : list AudioRow :=
  map (fun r => if sa_section_id r =? section_id then set_error now r else r) sa.

(** The [for row in rows] loop.  [int(time.time() * 1000)] is evaluated
    anew in every iteration: [clock k] is the reading of the [k]-th
    iteration of the run. *)
Fixpoint reset_loop
    (clock : nat -> Z) (k : nat) (rows : list string)
    (sa : list AudioRow) : list AudioRow :=
  match rows with
  | [] => sa
  | section_id :: rest =>
      reset_loop clock (S k) rest (update_error (clock k) section_id sa)
  end.

(** What the script prints. *)
Inductive Report : Type :=
| NoStuckEntries                       (* "No stuck entries found." *)
| ResetSections (sections : list string). (* "Updated section ... to ERROR" *)

Definition reset_stuck_audio
    (clock : nat -> Z) (story_id : string) (db : DB) : DB * Report :=
  match select_stuck story_id (story_sections db) (story_audio db) with
  | [] => (db, NoStuckEntries)
  | rows =>
      (with_story_audio db (reset_loop clock 0 rows (story_audio db)),
       ResetSections rows)
  end.

End ResetStuckAudio.

(** ** check_story_audio.py and check_story_narrations.py: status listings *)

Module CheckStory.













End CheckStory.

(** ** The job store of the web application *)

Module JobStore.
Import RecoverAudio ResetStuckAudio.

(** Modelled from the spec: the web application's job store ([create],
    [getByKey], [update]) and its status state machine are not among the
    Python scripts; the definitions of this module up to [update] follow
    sections 3, 4.1 and 4.2 of the specification.  A job is a row of
    [story_audio]; its key is the (section, voice) pair; rows are never
    deleted and a re-request appends a new row.  These are the errors of the
    store. *)
Inductive StoreError : Type :=
| DuplicateActiveJob | NotFound | StaleStatus | IllegalTransition.

(** The outcome of a store operation. *)
Inductive Result (A : Type) : Type :=
| Ok (a : A)
| Failed (e : StoreError).
Arguments Ok {A} a.
Arguments Failed {A} e.

(** Modelled from the spec: terminal states are COMPLETE and ERROR. *)
Definition terminal (s : Status) : bool :=
  match s with COMPLETE | ERROR => true | PENDING | PROCESSING => false end.

(** Modelled from the spec: the edges
    PENDING -> PROCESSING -> COMPLETE | ERROR of section 4.2. *)
Definition edge (a b : Status) : bool :=
  match a, b with
  | PENDING, PROCESSING | PROCESSING, COMPLETE | PROCESSING, ERROR => true
  | _, _ => false
  end.

(** The row belongs to the key. *)
Definition has_key (k : string * string) (r : AudioRow) : bool :=
  matches_key (fst k) (snd k) r.

(** Modelled from the spec: a non-terminal job exists for the key. *)
Definition active_for (k : string * string) (sa : list AudioRow) : bool :=
  existsb (fun r => has_key k r && negb (terminal (sa_status r))) sa.

(** Modelled from the spec: a job is created in PENDING, with no
    [audio_url], no [error] and no [completed_at]. *)
Definition fresh_job (now : Z) (k : string * string) : AudioRow :=
  {| sa_section_id := fst k;
     sa_voice_id := snd k;
     sa_status := PENDING;
     sa_audio_url := None;
     sa_error := None;
     sa_created_at := now;
     sa_updated_at := now;
     sa_completed_at := None |}.

(** Modelled from the spec: [create(key, voice_id)] of section 4.1, which is
    not among the Python scripts: rejected with [DuplicateActiveJob] when a
    non-terminal job exists for the key, otherwise a new PENDING record is
    appended and the stored records stay as history. *)
Definition create (now : Z) (k : string * string) (sa : list AudioRow)
    : Result (list AudioRow) :=
  if active_for k sa then Failed DuplicateActiveJob
  else Ok (sa ++ [fresh_job now k])%list.

(** Modelled from the spec: the current record of a key is the latest one
    (a re-request supersedes the terminal records of the key). *)
Fixpoint locate (k : string * string) (sa : list AudioRow) : option nat :=
  match sa with
  | [] => None
  | r :: rest =>
      match locate k rest with
      | Some i => Some (S i)
      | None => if has_key k r then Some O else None
      end
  end.


(** Modelled from the spec: the [fields] argument of [update], the columns
    to write besides the status and the timestamps. *)
Record Fields : Type := mkFields {
  fld_audio_url : option string;
  fld_error : option string
}.

(** Modelled from the spec: a committed update writes status and fields
    together, refreshes [updated_at], and sets [completed_at] on entry to a
    terminal state. *)
Definition apply_update (now : Z) (new : Status) (f : Fields) (r : AudioRow)
    : AudioRow :=
  {| sa_section_id := sa_section_id r;
     sa_voice_id := sa_voice_id r;
     sa_status := new;
     sa_audio_url :=
       match fld_audio_url f with Some u => Some u | None => sa_audio_url r end;
     sa_error :=
       match fld_error f with Some e => Some e | None => sa_error r end;
     sa_created_at := sa_created_at r;
     sa_updated_at := now;
     sa_completed_at :=
       if terminal new then Some now else sa_completed_at r |}.

(** Modelled from the spec: [update(key, expectedStatus, newStatus, fields)]
    of section 4.1 with the transition check of section 4.2, which is not
    among the Python scripts.  The transition a request attempts is the one
    from [expected] to [new]: when that is not an edge the request is an
    [IllegalTransition] (a defect of the caller, section 7); a request for
    an edge whose guard fails, the stored status being no longer the
    expected one, is a [StaleStatus] (the benign race of sections 4.1 and
    7); otherwise the write commits as a whole.  A rejected update returns
    no store: nothing is written. *)
Definition update (now : Z) (k : string * string) (expected new : Status)
    (f : Fields) (sa : list AudioRow) : Result (list AudioRow) :=
  match locate k sa with
  | None => Failed NotFound
  | Some i =>
      match sa !! i with
      | None => Failed NotFound
      | Some r =>
          if negb (edge expected new) then Failed IllegalTransition
          else if negb (status_eqb (sa_status r) expected) then Failed StaleStatus
          else Ok (<[i := apply_update now new f r]> sa)
      end
  end.

(** The operations that reach the store: the worker path ([Create],
    [Update]) and the two administrative scripts, which are run as they are
    in [recover_audio.py] and [reset_stuck_audio.py]. *)
Inductive Op : Type :=
| Create (now : Z) (k : string * string)
| Update (now : Z) (k : string * string) (expected new : Status) (f : Fields)
| ForceComplete (audio_url : string) (now : Z) (section_id : string)
| ForceFail (clock : nat -> Z) (story_id : string).


Definition commit (db : DB) (res : Result (list AudioRow)) : DB :=
  match res with
  | Ok sa => with_story_audio db sa
  | Failed _ => db
  end.

(** One operation; a rejected operation leaves the database as it was. *)
Definition exec (op : Op) (db : DB) : DB :=
  match op with
  | Create now k => commit db (create now k (story_audio db))
  | Update now k expected new f =>
      commit db (update now k expected new f (story_audio db))
  | ForceComplete audio_url now section_id =>
      fst (recover_audio audio_url now section_id db)
  | ForceFail clock story_id =>
      fst (reset_stuck_audio clock story_id db)
  end.

Definition run (ops : list Op) (db : DB) : DB :=
  fold_left (fun d op => exec op d) ops db.

(** Reflexive-transitive closure of [edge]. *)
Definition reach (a b : Status) : bool :=
  match a, b with
  | PENDING, _ => true
  | PROCESSING, PENDING => false
  | PROCESSING, _ => true
  | COMPLETE, COMPLETE | ERROR, ERROR => true
  | _, _ => false
  end.

(** At most one non-terminal job per key. *)
Definition one_active_per_key (sa : list AudioRow) : Prop :=
  forall (i j : nat) (r1 r2 : AudioRow),
    sa !! i = Some r1 -> sa !! j = Some r2 ->
    key_of r1 = key_of r2 ->
    terminal (sa_status r1) = false -> terminal (sa_status r2) = false ->
    i = j.

End JobStore.

(** ** The specification's wording of the detector and of the guard *)

Module Design.

(** [findStuck(timeout)] as section 4.3 words it: the jobs with
    [status = PROCESSING] and [now - updated_at > timeout]. *)
Definition findStuck (now timeout : Z) (sa : list AudioRow) : list AudioRow :=
  List.filter (fun r => status_eqb (sa_status r) PROCESSING
                        && (timeout <? now - sa_updated_at r)%Z) sa.

(** A write guarded by "stored status = PROCESSING at write time", as
    sections 4.4 and 5 word it: a row whose stored status is not
    PROCESSING when the write runs is left as it is. *)
Definition guarded_by_processing
    (write : list AudioRow -> list AudioRow) : Prop :=
  forall (sa : list AudioRow) (i : nat) (r : AudioRow),
    sa !! i = Some r -> sa_status r <> PROCESSING -> write sa !! i = Some r.

(** The record invariant of section 3: [audio_url] only on COMPLETE rows,
    [error] only on ERROR rows. *)
Definition fields_match_status (r : AudioRow) : bool :=
  match sa_audio_url r with
  | Some _ => status_eqb (sa_status r) COMPLETE
  | None => true
  end
  &&
  match sa_error r with
  | Some _ => status_eqb (sa_status r) ERROR
  | None => true
  end.

(** The same row with another [updated_at]. *)
Definition retimed (t : Z) (r : AudioRow) : AudioRow :=
  {| sa_section_id := sa_section_id r;
     sa_voice_id := sa_voice_id r;
     sa_status := sa_status r;
     sa_audio_url := sa_audio_url r;
     sa_error := sa_error r;
     sa_created_at := sa_created_at r;
     sa_updated_at := t;
     sa_completed_at := sa_completed_at r |}.



End Design.

(** ** Concrete stores *)

Module Scenarios.

(** Section 8: job (sec-1, v-1) created at t=0, PROCESSING since t=1. *)
Definition stuck_job : AudioRow :=
  mkAudioRow "sec-1" "v-1" PROCESSING None None 0 1 None.

Definition story1_sections : list SectionRow :=
  [mkSectionRow "sec-1" "story-1" 0].

Definition db_stuck : DB := mkDB [stuck_job] story1_sections [].

(** A clock that reads t=301 at every iteration. *)
Definition at_301 : nat -> Z := fun _ => 301.

(** The same section narrated by a second voice, which finished at t=5. *)
Definition done_job : AudioRow :=
  mkAudioRow "sec-1" "v-2" COMPLETE (Some "/api/audio/a.wav") None 0 5 (Some 5).

Definition db_two_voices : DB := mkDB [done_job; stuck_job] story1_sections [].

(** The section after its only job finished. *)
Definition db_done : DB := mkDB [done_job] story1_sections [].

(** The same section with a job of a third voice that failed at t=7 for a
    reason of its own. *)
Definition failed_job : AudioRow :=
  mkAudioRow "sec-1" "v-3" ERROR None (Some "synthesis failed") 0 7 (Some 7).

Definition db_failed_and_stuck : DB :=
  mkDB [failed_job; stuck_job] story1_sections [].

(** Two voices stuck on the same section. *)
Definition stuck_job_v2 : AudioRow :=
  mkAudioRow "sec-1" "v-2" PROCESSING None None 0 2 None.

Definition db_two_stuck : DB :=
  mkDB [stuck_job; stuck_job_v2] story1_sections [].

(** Both voices of the section failed once and were requested again; the
    terminal records stay in the table as history. *)
Definition db_retried : DB :=
  mkDB [mkAudioRow "sec-1" "v-1" ERROR None (Some "synthesis failed") 0 3 (Some 3);
        mkAudioRow "sec-1" "v-2" ERROR None (Some "synthesis failed") 0 4 (Some 4);
        mkAudioRow "sec-1" "v-1" PROCESSING None None 10 11 None;
        mkAudioRow "sec-1" "v-2" PROCESSING None None 10 12 None]
       story1_sections [].

(** A job that entered PROCESSING at t=2, one millisecond inside a
    timeout of 300 when the detector runs at t=301. *)
Definition recent_job : AudioRow :=
  mkAudioRow "sec-1" "v-1" PROCESSING None None 0 2 None.

Definition db_recent : DB := mkDB [recent_job] story1_sections [].

(** A story with three sections; audio exists for the third and the first
    section only, stored in that order. *)
Definition story3_sections : list SectionRow :=
  [mkSectionRow "s0" "story-3" 0;
   mkSectionRow "s1" "story-3" 1;
   mkSectionRow "s2" "story-3" 2].



(** Two stories: section sec-1 of story-1 and section s0 of story-3 each
    have a stuck job. *)
Definition db_two_stories : DB :=
  mkDB [stuck_job; mkAudioRow "s0" "v-1" PROCESSING None None 3 4 None]
       (story1_sections ++ story3_sections)%list [].

End Scenarios.

(** ** Repeated and combined runs of the scripts *)

Module ScriptRuns.
Import RecoverAudio ResetStuckAudio.

(** The last iteration of the [for row in rows] loop of
    [reset_stuck_audio.py] whose row names the section. *)
Fixpoint last_index_of (x : string) (rows : list string) : option nat :=
  match rows with
  | [] => None
  | y :: rest =>
      match last_index_of x rest with
      | Some j => Some (S j)
      | None => if y =? x then Some O else None
      end
  end.

(** The number of PROCESSING rows of a section. *)
Definition processing_count (section_id : string) (sa : list AudioRow) : nat :=
  length (List.filter (is_processing_of section_id) sa).

(** [recover_audio.py] run again and again as it is, with the same
    [section_id] and [audio_url]: one run per clock reading. *)
Fixpoint recover_runs
    (audio_url : string) (nows : list Z) (section_id : string) (db : DB) : DB :=
  match nows with
  | [] => db
  | now :: rest =>
      recover_runs audio_url rest section_id
        (fst (recover_audio audio_url now section_id db))
  end.



End ScriptRuns.

(** ** ORDER BY, for the scripts below *)

Module Sql.

Section OrderBy.
Context {A : Type} (leb : A -> A -> bool).

(** [ORDER BY] as an insertion sort: [leb x y] says that [x] may come
    before [y]. *)
Fixpoint insert_ordered (x : A) (l : list A) : list A :=
  match l with
  | [] => [x]
  | y :: rest => if leb x y then x :: l else y :: insert_ordered x rest
  end.

Definition order_by (l : list A) : list A := fold_right insert_ordered [] l.

End OrderBy.

(** SQLite's order on a nullable integer column: NULL sorts below every
    integer. *)
Definition null_leb (a b : option Z) : bool :=
  match a, b with
  | None, _ => true
  | Some _, None => false
  | Some x, Some y => (x <=? y)%Z
  end.

End Sql.

(** ** check_recent.py: the three most recent rows *)

Module CheckRecent.
Import Sql.

Section Recent.
(** The script lists two tables, [stories] and [voice_generations]; their
    declarations are not among the scripts, so a row is any type with a
    nullable integer [created_at] column. *)
Context {Row : Type} (created_at : Row -> option Z).

(** [ORDER BY created_at DESC]: a row may come first when the other's
    [created_at] is below or equal to its own. *)
Definition newer_first (x y : Row) : bool :=
  null_leb (created_at y) (created_at x).

(** [SELECT ... ORDER BY created_at DESC LIMIT 3] and [fetchall()]. *)
Definition recent (table : list Row) : list Row :=
  firstn 3 (order_by newer_first table).

(** [diff = current_ts - story_ts if story_ts else 0]: a NULL and a zero
    timestamp are both falsy. *)
Definition diff (current_ts : Z) (ts : option Z) : Z :=
  match ts with
  | Some t => if (t =? 0)%Z then 0 else current_ts - t
  | None => 0
  end.

(** One printed line per fetched row: the row and its [diff]. *)
Definition recent_lines (current_ts : Z) (table : list Row) : list (Row * Z) :=
  map (fun r => (r, diff current_ts (created_at r))) (recent table).

End Recent.

(** The script: [current_ts] is [int(time.time())]; the first listing is
    over [stories], the second over [voice_generations]. *)
Definition check_recent {Story Generation : Type}
    (story_created_at : Story -> option Z)
    (generation_created_at : Generation -> option Z)
    (current_ts : Z) (stories : list Story) (voice_generations : list Generation)
    : list (Story * Z) * list (Generation * Z) :=
  (recent_lines story_created_at current_ts stories,
   recent_lines generation_created_at current_ts voice_generations).

End CheckRecent.

(** ** verify_sections.py: the sections of a story found by its slug *)

Module VerifySections.
Import Sql.

(** The columns of [stories] the script uses. *)
Record StoryRow : Type := mkStoryRow {
  st_id : string;
  st_slug : string
}.

(** A Python [str] as the script slices it: the sequence of its characters,
    each given by its code point. *)
Definition Text : Type := list N.

(** A row of [story_sections] with its nullable [text] column. *)
Definition SectionText : Type := (SectionRow * option Text)%type.

(** [SELECT id FROM stories WHERE slug = ?] and [fetchone()]: a story
    with the slug, the first one in stored order in the model. *)
Definition select_story_id (slug : string) (stories : list StoryRow)
    : option string :=
  match find (fun s => st_slug s =? slug) stories with
  | Some s => Some (st_id s)
  | None => None
  end.

Definition index_leb (x y : SectionText) : bool :=
  (ss_section_index (fst x) <=? ss_section_index (fst y))%Z.

(** [SELECT id, section_index, text FROM story_sections
     WHERE story_id = ? ORDER BY section_index] and [fetchall()]. *)
Definition select_sections (story_id : string) (sections : list SectionText)
    : list SectionText :=
  order_by index_leb
    (List.filter (fun x => ss_story_id (fst x) =? story_id) sections).

(** The [for row in rows] loop: one line [(section_index, text[:50])] per
    row; slicing a NULL text raises, which ends the loop, so the lines
    printed so far are followed by the error. *)
Fixpoint print_sections (rows : list SectionText) : list (Z * Text) * bool :=
  match rows with
  | [] => ([], false)
  | (s, Some text) :: rest =>
      let (lines, failed) := print_sections rest in
      ((ss_section_index s, firstn 50 text) :: lines, failed)
  | (_, None) :: _ => ([], true)
  end.

(** The line printed for a row with a text. *)
Definition line_of (x : SectionText) (l : Z * Text) : Prop :=
  exists text : Text,
    snd x = Some text /\
    l = (ss_section_index (fst x), firstn 50 text).

(** What the script prints. *)
Inductive Report : Type :=
| StoryNotFound                                  (* "Story not found." *)
| FoundSections (count : nat) (lines : list (Z * Text)) (failed : bool).

Definition verify_sections (slug : string) (stories : list StoryRow)
    (sections : list SectionText) : Report :=
  match select_story_id slug stories with
  | None => StoryNotFound
  | Some story_id =>
      let rows := select_sections story_id sections in
      let (lines, failed) := print_sections rows in
      FoundSections (length rows) lines failed
  end.

End VerifySections.

(** ** ml_api_v2.py: the story generation endpoint *)

Module MlApiV2.

(** The exceptions the handler distinguishes: FastAPI's [HTTPException],
    [httpx.TimeoutException], and every other [Exception]. *)
Inductive Exn : Type :=
| HTTPException (status_code : Z) (detail : string)
| TimeoutException
| OtherException (message : string).

(** [StoryGenerateRequest], without the sampling temperature. *)
Record StoryGenerateRequest : Type := mkStoryGenerateRequest {
  prompt : string;
  max_length : Z;
  style : option string
}.

Definition DEFAULT_MODEL : string := "llama3.2:1b".

(** The system message, extended according to the style. *)
Definition system_prompt (request : StoryGenerateRequest) : string :=
  let base :=
    "You are a creative storyteller helping families create engaging narratives." in
  match style request with
  | Some s =>
      if s =? "narrative" then
        base ++ " Write in a warm, narrative style suitable for family stories."
      else if s =? "documentary" then
        base ++ " Write in a documentary style with informative, clear narration."
      else if s =? "children" then
        base ++ " Write in a simple, engaging style suitable for children."
      else base
  | None => base
  end.

(** The prompt sent to Ollama; the source writes the separators as escaped
    backslashes, so they are a backslash followed by [n]. *)
Definition ollama_prompt (request : StoryGenerateRequest) : string :=
  system_prompt request ++ "\n\nUser request: " ++ prompt request
  ++ "\n\nGenerate a compelling story:".

(** What [response.json()] and [result.get("response", "")] give: the
    field when it is a string, nothing when it is missing, or a failure
    when the body is not a JSON object or the field is not a string. *)
Inductive Body : Type :=
| BodyFails (message : string)
| BodyResponse (response : option string).

(** The outcome of [client.post(...)]. *)
Inductive Posted : Type :=
| PostRaised (e : Exn)
| Responded (status_code : Z) (text : string) (body : Body).

(** The JSON object the handler returns. *)
Record StoryResponse : Type := mkStoryResponse {
  r_text : string;
  r_tokens_used : nat;
  r_style : option string;
  r_model : string;
  r_status : string
}.

Section Handler.
(** The Ollama server (as a function of model, prompt and [num_predict]),
    [str(e)] and [len(text.split())] are outside the script. *)
Context (post : string -> string -> Z -> Posted)
        (str : Exn -> string)
        (word_count : string -> nat).

(** The body of the [try] block. *)
Definition generate_story_body (request : StoryGenerateRequest)
    : Exn + StoryResponse :=
  match post DEFAULT_MODEL (ollama_prompt request) (max_length request) with
  | PostRaised e => inl e
  | Responded status_code text body =>
      if negb (status_code =? 200)%Z then
        inl (HTTPException 502 ("Ollama API error: " ++ text))
      else
        match body with
        | BodyFails message => inl (OtherException message)
        | BodyResponse response =>
            let generated_text :=
              match response with Some t => t | None => "" end in
            inr {| r_text := generated_text;
                   r_tokens_used := word_count generated_text;
                   r_style := style request;
                   r_model := DEFAULT_MODEL;
                   r_status := "completed" |}
        end
  end.

(** The handler: [except httpx.TimeoutException] first, then
    [except Exception as e], which also catches an [HTTPException] raised
    in the block. *)
Definition generate_story (request : StoryGenerateRequest)
    : Exn + StoryResponse :=
  match generate_story_body request with
  | inr response => inr response
  | inl TimeoutException =>
      inl (HTTPException 504 "Story generation timed out")
  | inl e => inl (HTTPException 500 (str e))
  end.

End Handler.

End MlApiV2.

(** * Properties *)

(** ** Rows, keys and row-wise updates *)

Section RowFacts.

Lemma status_eqb_eq (a b : Status) : status_eqb a b = true <-> a = b.
Proof. destruct a, b; simpl; split; intros H; congruence. Qed.

Lemma status_eqb_refl (a : Status) : status_eqb a a = true.
Proof. now apply status_eqb_eq. Qed.


Lemma lookup_map {A B : Type} (f : A -> B) (l : list A) (i : nat) :
  map f l !! i = f <$> (l !! i).
Proof.
  revert i; induction l as [|x l IH]; intros [|i]; simpl; auto.
Qed.

Lemma matches_key_true (s v : string) (r : AudioRow) :
  RecoverAudio.matches_key s v r = true <-> key_of r = (s, v).
Proof.
  unfold RecoverAudio.matches_key, key_of.
  rewrite andb_true_iff, !String.eqb_eq. split.
  - intros [-> ->]; reflexivity.
  - intros H; inversion H; auto.
Qed.

Lemma matches_key_false (s v : string) (r : AudioRow) :
  RecoverAudio.matches_key s v r = false <-> key_of r <> (s, v).
Proof.
  rewrite <- matches_key_true.
  destruct (RecoverAudio.matches_key s v r); split; congruence.
Qed.

(** [find] returns the first row, in scan order, that passes the test. *)
Lemma find_first {A : Type} (p : A -> bool) (l : list A) (x : A) :
  find p l = Some x ->
  exists i : nat,
    l !! i = Some x /\ p x = true /\
    forall (j : nat) (y : A), (j < i)%nat -> l !! j = Some y -> p y = false.
Proof.
  induction l as [|a l IH]; simpl; [discriminate|].
  destruct (p a) eqn:Hpa.
  - intros [= <-]. exists O. repeat split; auto. intros j y Hj; lia.
  - intros Hf. destruct (IH Hf) as (i & Hi & Hpx & Hfirst).
    exists (S i). repeat split; auto.
    intros [|j] y Hj; simpl.
    + intros [= <-]; exact Hpa.
    + apply Hfirst; lia.
Qed.

Lemma find_none_lookup {A : Type} (p : A -> bool) (l : list A) :
  find p l = None <-> forall (i : nat) (x : A), l !! i = Some x -> p x = false.
Proof.
  induction l as [|a l IH]; simpl.
  - split; auto. intros _ i x; rewrite lookup_nil; discriminate.
  - destruct (p a) eqn:Hpa.
    + split; [discriminate|]. intros H. specialize (H O a eq_refl). congruence.
    + rewrite IH. split.
      * intros H [|i] x; simpl; [intros [= <-]; auto | apply H].
      * intros H i x Hi. apply (H (S i) x Hi).
Qed.

End RowFacts.

(** ** recover_audio.py *)

Module RecoverAudioFacts.
Import RecoverAudio Scenarios.

Lemma is_processing_of_true (s : string) (r : AudioRow) :
  is_processing_of s r = true <-> sa_section_id r = s /\ sa_status r = PROCESSING.
Proof.
  unfold is_processing_of.
  now rewrite andb_true_iff, String.eqb_eq, status_eqb_eq.
Qed.

(** What [fetchone()] hands back: the voice of the first PROCESSING row of
    the section. *)
Lemma select_processing_voice_first (s v : string) (sa : list AudioRow) :
  select_processing_voice s sa = Some v ->
  exists (i : nat) (r : AudioRow),
    sa !! i = Some r /\ key_of r = (s, v) /\ sa_status r = PROCESSING /\
    forall (j : nat) (r' : AudioRow),
      (j < i)%nat -> sa !! j = Some r' -> is_processing_of s r' = false.
Proof.
  unfold select_processing_voice.
  destruct (find (is_processing_of s) sa) as [r|] eqn:Hf; [|discriminate].
  intros [= <-].
  destruct (find_first _ _ _ Hf) as (i & Hi & Hp & Hfirst).
  apply is_processing_of_true in Hp as [Hs Hst].
  exists i, r. repeat split; auto.
  unfold key_of. now rewrite Hs.
Qed.

Lemma select_processing_voice_none (s : string) (sa : list AudioRow) :
  select_processing_voice s sa = None <->
  forall (i : nat) (r : AudioRow),
    sa !! i = Some r -> sa_section_id r = s -> sa_status r <> PROCESSING.
Proof.
  unfold select_processing_voice.
  destruct (find (is_processing_of s) sa) as [r|] eqn:Hf.
  - split; [discriminate|]. intros H. exfalso.
    destruct (find_first _ _ _ Hf) as (i & Hi & Hp & _).
    apply is_processing_of_true in Hp as [Hs Hst].
    exact (H i r Hi Hs Hst).
  - split; [intros _|reflexivity].
    intros i r Hi Hs Hst.
    pose proof (proj1 (find_none_lookup _ _) Hf i r Hi) as Hp.
    assert (is_processing_of s r = true) by now apply is_processing_of_true.
    congruence.
Qed.

Lemma lookup_update_complete (u : string) (now : Z) (s v : string)
    (sa : list AudioRow) (i : nat) :
  update_complete u now s v sa !! i =
  (fun r => if matches_key s v r then set_complete u now r else r) <$> (sa !! i).
Proof. unfold update_complete. apply lookup_map. Qed.

Lemma update_complete_hit (u : string) (now : Z) (s v : string)
    (sa : list AudioRow) (i : nat) (r : AudioRow) :
  sa !! i = Some r -> key_of r = (s, v) ->
  update_complete u now s v sa !! i = Some (set_complete u now r).
Proof.
  intros Hi Hk. rewrite lookup_update_complete, Hi. simpl.
  now rewrite (proj2 (matches_key_true s v r) Hk).
Qed.

Lemma update_complete_miss (u : string) (now : Z) (s v : string)
    (sa : list AudioRow) (i : nat) (r : AudioRow) :
  sa !! i = Some r -> key_of r <> (s, v) ->
  update_complete u now s v sa !! i = Some r.
Proof.
  intros Hi Hk. rewrite lookup_update_complete, Hi. simpl.
  now rewrite (proj2 (matches_key_false s v r) Hk).
Qed.

Lemma recover_audio_found (u : string) (now : Z) (s v : string) (db : DB) :
  select_processing_voice s (story_audio db) = Some v ->
  recover_audio u now s db =
  (with_story_audio db (update_complete u now s v (story_audio db)), Recovered v).
Proof. intros H. unfold recover_audio. now rewrite H. Qed.

Lemma recover_audio_not_found (u : string) (now : Z) (s : string) (db : DB) :
  select_processing_voice s (story_audio db) = None ->
  recover_audio u now s db = (db, NoProcessingEntry).
Proof. intros H. unfold recover_audio. now rewrite H. Qed.

(** When keys identify rows, the update writes a single position. *)
Lemma update_complete_single (u : string) (now : Z) (sa : list AudioRow)
    (i : nat) (r : AudioRow) :
  NoDup (map key_of sa) -> sa !! i = Some r ->
  update_complete u now (sa_section_id r) (sa_voice_id r) sa =
  <[i := set_complete u now r]> sa.
Proof.
  intros Hnd Hi. apply list_eq. intros j.
  destruct (decide (i = j)) as [<-|Hne].
  - rewrite list_lookup_insert_eq by (eapply lookup_lt_Some; eauto).
    now apply update_complete_hit.
  - rewrite list_lookup_insert_ne by assumption.
    destruct (sa !! j) as [r'|] eqn:Hj.
    + apply update_complete_miss; auto.
      intros Hk. apply Hne.
      apply (proj1 (NoDup_alt (map key_of sa)) Hnd i j (key_of r)).
      * now rewrite lookup_map, Hi.
      * rewrite lookup_map, Hj. simpl. now rewrite Hk.
    + now rewrite lookup_update_complete, Hj.
Qed.

(** When one row only carries the pair, the update writes that position
    and no other. *)
Lemma update_complete_only (u : string) (now : Z) (sa : list AudioRow)
    (i : nat) (r : AudioRow) :
  sa !! i = Some r ->
  (forall (j : nat) (r' : AudioRow),
     sa !! j = Some r' -> key_of r' = key_of r -> j = i) ->
  update_complete u now (sa_section_id r) (sa_voice_id r) sa =
  <[i := set_complete u now r]> sa.
Proof.
  intros Hi Honly. apply list_eq. intros j.
  destruct (decide (i = j)) as [<-|Hne].
  - rewrite list_lookup_insert_eq by (eapply lookup_lt_Some; eauto).
    now apply update_complete_hit.
  - rewrite list_lookup_insert_ne by assumption.
    destruct (sa !! j) as [r'|] eqn:Hj.
    + apply update_complete_miss; auto.
      intros Hk. apply Hne. symmetry. exact (Honly j r' Hj Hk).
    + now rewrite lookup_update_complete, Hj.
Qed.

End RecoverAudioFacts.

(** ** reset_stuck_audio.py *)

Module ResetStuckAudioFacts.
Import ResetStuckAudio Scenarios.

Lemma joins_true (story_id : string) (a : AudioRow) (s : SectionRow) :
  joins story_id a s = true <-> sa_section_id a = ss_id s /\ ss_story_id s = story_id.
Proof. unfold joins. now rewrite andb_true_iff, !String.eqb_eq. Qed.

(** The rows of the query: the section ids of the PROCESSING rows whose
    section belongs to the story. *)
Lemma In_select_stuck (story_id : string) (ss : list SectionRow)
    (sa : list AudioRow) (x : string) :
  In x (select_stuck story_id ss sa) <->
  exists (a : AudioRow) (s : SectionRow),
    In a sa /\ In s ss /\ joins story_id a s = true /\
    sa_status a = PROCESSING /\ sa_section_id a = x.
Proof.
  unfold select_stuck. rewrite in_flat_map. split.
  - intros (a & Ha & Hin). apply in_flat_map in Hin as (s & Hs & Hin).
    destruct (joins story_id a s) eqn:Hj; simpl in Hin; [|contradiction].
    destruct (status_eqb (sa_status a) PROCESSING) eqn:Hst; simpl in Hin;
      [|contradiction].
    destruct Hin as [<-|[]]. exists a, s. repeat split; auto.
    now apply status_eqb_eq.
  - intros (a & s & Ha & Hs & Hj & Hst & <-). exists a. split; auto.
    apply in_flat_map. exists s. split; auto.
    rewrite Hj, Hst. simpl. now left.
Qed.

Lemma lookup_update_error (now : Z) (s : string) (sa : list AudioRow) (i : nat) :
  update_error now s sa !! i =
  (fun r => if sa_section_id r =? s then set_error now r else r) <$> (sa !! i).
Proof. unfold update_error. apply lookup_map. Qed.

Lemma set_error_again (n m : Z) (r : AudioRow) :
  set_error m (set_error n r) = set_error m r.
Proof. reflexivity. Qed.

Lemma length_reset_loop (clock : nat -> Z) (rows : list string) :
  forall (k : nat) (sa : list AudioRow),
    length (reset_loop clock k rows sa) = length sa.
Proof.
  induction rows as [|x rows IH]; intros k sa; simpl; auto.
  rewrite IH. unfold update_error. apply length_map.
Qed.

(** After the loop a row is either untouched, when its section is not among
    the fetched rows, or carries the [SET] clause of the iteration that
    wrote it last. *)
Lemma reset_loop_lookup (clock : nat -> Z) (rows : list string) :
  forall (k : nat) (sa : list AudioRow) (i : nat) (r : AudioRow),
    sa !! i = Some r ->
    (~ In (sa_section_id r) rows /\ reset_loop clock k rows sa !! i = Some r)
    \/
    (exists j : nat,
       rows !! j = Some (sa_section_id r) /\
       reset_loop clock k rows sa !! i = Some (set_error (clock (k + j)%nat) r)).
Proof.
  induction rows as [|x rows IH]; intros k sa i r Hi; simpl.
  - left. split; auto.
  - set (r1 := if sa_section_id r =? x then set_error (clock k) r else r).
    assert (H1 : update_error (clock k) x sa !! i = Some r1)
      by (rewrite lookup_update_error, Hi; reflexivity).
    assert (Hsec : sa_section_id r1 = sa_section_id r)
      by (unfold r1; destruct (sa_section_id r =? x); reflexivity).
    assert (Hset : forall m, set_error m r1 = set_error m r)
      by (intros m; unfold r1; destruct (sa_section_id r =? x); reflexivity).
    destruct (IH (S k) _ i r1 H1) as [[Hnin Hl]|(j & Hj & Hl)].
    + rewrite Hsec in Hnin. unfold r1 in Hl.
      destruct (sa_section_id r =? x) eqn:Hx.
      * right. exists O. apply String.eqb_eq in Hx. simpl.
        rewrite Nat.add_0_r. split; [congruence | exact Hl].
      * left. split; auto. apply String.eqb_neq in Hx.
        intros [Heq|Hin]; [congruence | auto].
    + right. exists (S j). simpl. rewrite Hsec in Hj. split; auto.
      rewrite Hl, Hset.
      now replace (k + S j)%nat with (S k + j)%nat by lia.
Qed.

Lemma reset_loop_lookup_inv (clock : nat -> Z) (rows : list string)
    (k : nat) (sa : list AudioRow) (i : nat) (r' : AudioRow) :
  reset_loop clock k rows sa !! i = Some r' ->
  exists r : AudioRow, sa !! i = Some r.
Proof.
  intros H. apply lookup_lt_Some in H. rewrite length_reset_loop in H.
  destruct (lookup_lt_is_Some_2 sa i H) as [r Hr]. eauto.
Qed.

(** Once the loop has run, the query finds nothing more. *)
Lemma select_stuck_after_reset (clock : nat -> Z) (story_id : string)
    (ss : list SectionRow) (sa : list AudioRow) :
  select_stuck story_id ss
    (reset_loop clock 0 (select_stuck story_id ss sa) sa) = [].
Proof.
  set (rows := select_stuck story_id ss sa).
  destruct (select_stuck story_id ss (reset_loop clock 0 rows sa))
    as [|x l] eqn:Hq; [reflexivity|exfalso].
  assert (Hin : In x (select_stuck story_id ss (reset_loop clock 0 rows sa)))
    by (rewrite Hq; now left).
  apply In_select_stuck in Hin as (a' & s & Ha' & Hs & Hj & Hst & _).
  apply list_elem_of_In, list_elem_of_lookup in Ha' as [i Hi].
  destruct (reset_loop_lookup_inv _ _ _ _ _ _ Hi) as [a Ha].
  destruct (reset_loop_lookup clock rows 0 sa i a Ha) as [[Hnin Hl]|(j & _ & Hl)].
  - rewrite Hl in Hi. injection Hi as <-. apply Hnin.
    apply In_select_stuck. exists a, s. repeat split; auto.
    apply list_elem_of_In, list_elem_of_lookup. eauto.
  - rewrite Hl in Hi. injection Hi as <-. discriminate Hst.
Qed.

Lemma reset_stuck_audio_none (clock : nat -> Z) (story_id : string) (db : DB) :
  select_stuck story_id (story_sections db) (story_audio db) = [] ->
  reset_stuck_audio clock story_id db = (db, NoStuckEntries).
Proof. intros H. unfold reset_stuck_audio. now rewrite H. Qed.

Lemma story_audio_reset (clock : nat -> Z) (story_id : string) (db : DB) :
  story_audio (fst (reset_stuck_audio clock story_id db)) =
  reset_loop clock 0
    (select_stuck story_id (story_sections db) (story_audio db)) (story_audio db).
Proof.
  unfold reset_stuck_audio.
  destruct (select_stuck story_id (story_sections db) (story_audio db));
    reflexivity.
Qed.

Lemma story_sections_reset (clock : nat -> Z) (story_id : string) (db : DB) :
  story_sections (fst (reset_stuck_audio clock story_id db)) = story_sections db.
Proof.
  unfold reset_stuck_audio.
  destruct (select_stuck story_id (story_sections db) (story_audio db));
    reflexivity.
Qed.

End ResetStuckAudioFacts.

(** ** The two remedies *)

Module Recovery.
Import RecoverAudio ResetStuckAudio Scenarios.
Import RecoverAudioFacts ResetStuckAudioFacts.

(** C3 as stated fails: the script takes a section id and completes one
    voice.  With two voices of section sec-1 stuck, a run for the section
    leaves the job of the other voice PROCESSING; whichever of the two
    voices the query hands back, the update leaves the other row as it
    was. *)
Lemma force_complete_leaves_other_voice :
  sa_section_id stuck_job_v2 = "sec-1"
  /\ sa_status stuck_job_v2 = PROCESSING
  /\ story_audio db_two_stuck !! 1%nat = Some stuck_job_v2
  /\ story_audio (fst (recover_audio "/audio/x.wav" 301 "sec-1" db_two_stuck))
       !! 1%nat = Some stuck_job_v2
  /\ update_complete "/audio/x.wav" 301 "sec-1" "v-1" (story_audio db_two_stuck)
       !! 1%nat = Some stuck_job_v2
  /\ update_complete "/audio/x.wav" 301 "sec-1" "v-2" (story_audio db_two_stuck)
       !! O = Some stuck_job.
Proof. repeat split. Qed.

(** C3, amended.  Whenever a job of the section is PROCESSING, force-complete
    reads back the voice of one PROCESSING job of the section; every row of
    that (section, voice) pair ends with [status = COMPLETE], [audio_url]
    the artifact location and [completed_at] and [updated_at] the current
    time, its key, [error] and [created_at] as stored; a job of another
    voice is left as it was. *)
Theorem force_complete_sets_fields
    (audio_url : string) (now : Z) (section_id : string) (db : DB) :
  ((exists (i : nat) (r : AudioRow),
      story_audio db !! i = Some r /\
      sa_section_id r = section_id /\ sa_status r = PROCESSING) ->
   exists voice_id : string,
     select_processing_voice section_id (story_audio db) = Some voice_id)
  /\
  forall voice_id : string,
    select_processing_voice section_id (story_audio db) = Some voice_id ->
    (exists (i : nat) (r : AudioRow),
       story_audio db !! i = Some r /\
       key_of r = (section_id, voice_id) /\ sa_status r = PROCESSING) /\
    (forall (i : nat) (r : AudioRow),
       story_audio db !! i = Some r ->
       key_of r = (section_id, voice_id) ->
       exists r' : AudioRow,
         story_audio (fst (recover_audio audio_url now section_id db)) !! i
           = Some r' /\
         sa_status r' = COMPLETE /\
         sa_audio_url r' = Some audio_url /\
         sa_completed_at r' = Some now /\
         sa_updated_at r' = now /\
         key_of r' = key_of r /\
         sa_error r' = sa_error r /\
         sa_created_at r' = sa_created_at r) /\
    (forall (i : nat) (r : AudioRow),
       story_audio db !! i = Some r ->
       sa_voice_id r <> voice_id ->
       story_audio (fst (recover_audio audio_url now section_id db)) !! i
         = Some r).
Proof.
  split.
  - intros (i & r & Hi & Hs & Hst).
    destruct (select_processing_voice section_id (story_audio db)) as [v|] eqn:Hsel;
      [eauto|exfalso].
    exact (proj1 (select_processing_voice_none _ _) Hsel i r Hi Hs Hst).
  - intros v Hsel.
    rewrite (recover_audio_found _ _ _ _ _ Hsel). simpl.
    destruct (select_processing_voice_first _ _ _ Hsel)
      as (i0 & r0 & Hi0 & Hk0 & Hst0 & _).
    split; [eauto|]. split.
    + intros i r Hi Hk. exists (set_complete audio_url now r).
      split; [now apply update_complete_hit|]. repeat split.
    + intros i r Hi Hv. apply update_complete_miss; [exact Hi|].
      intros Hk. inversion Hk. contradiction.
Qed.

Lemma force_complete_sets_fields_witness :
  exists r' : AudioRow,
    story_audio (fst (recover_audio "/audio/x.wav" 301 "sec-1" db_stuck)) !! O
      = Some r' /\
    sa_status r' = COMPLETE /\
    sa_audio_url r' = Some "/audio/x.wav" /\
    sa_completed_at r' = Some 301 /\
    sa_updated_at r' = 301 /\
    key_of r' = ("sec-1", "v-1") /\
    sa_error r' = None /\
    sa_created_at r' = 0.
Proof.
  apply (proj1 (proj2 (proj2 (force_complete_sets_fields "/audio/x.wav" 301
                                "sec-1" db_stuck) "v-1" eq_refl)) O stuck_job);
    reflexivity.
Defined.

(** C10 as stated fails: the update is selected by the (section_id,
    voice_id) pair and writes every row of the pair.  In [db_retried] both
    voices of section sec-1 are PROCESSING and each pair also has an older
    record in ERROR; a run for the section writes two rows, the PROCESSING
    job of voice v-1 and the ERROR record of the same pair, and the same
    holds for the update of the other voice. *)
Lemma force_complete_writes_every_row_of_pair :
  story_audio (fst (recover_audio "/api/audio/x.wav" 301 "sec-1" db_retried))
  = [mkAudioRow "sec-1" "v-1" COMPLETE (Some "/api/audio/x.wav")
       (Some "synthesis failed") 0 301 (Some 301);
     mkAudioRow "sec-1" "v-2" ERROR None (Some "synthesis failed") 0 4 (Some 4);
     mkAudioRow "sec-1" "v-1" COMPLETE (Some "/api/audio/x.wav") None
       10 301 (Some 301);
     mkAudioRow "sec-1" "v-2" PROCESSING None None 10 12 None]
  /\ update_complete "/api/audio/x.wav" 301 "sec-1" "v-2" (story_audio db_retried)
     = [mkAudioRow "sec-1" "v-1" ERROR None (Some "synthesis failed") 0 3 (Some 3);
        mkAudioRow "sec-1" "v-2" COMPLETE (Some "/api/audio/x.wav")
          (Some "synthesis failed") 0 301 (Some 301);
        mkAudioRow "sec-1" "v-1" PROCESSING None None 10 11 None;
        mkAudioRow "sec-1" "v-2" COMPLETE (Some "/api/audio/x.wav") None
          10 301 (Some 301)]
  /\ (forall (i : nat) (r' : AudioRow),
        story_audio (fst (recover_audio "/api/audio/x.wav" 301 "sec-1" db_retried))
        <> <[i := r']> (story_audio db_retried)).
Proof.
  split; [reflexivity|]. split; [reflexivity|].
  intros i r' H.
  assert (H0 : story_audio
                 (fst (recover_audio "/api/audio/x.wav" 301 "sec-1" db_retried))
               !! O = <[i := r']> (story_audio db_retried) !! O)
    by (now rewrite H).
  assert (H2 : story_audio
                 (fst (recover_audio "/api/audio/x.wav" 301 "sec-1" db_retried))
               !! 2%nat = <[i := r']> (story_audio db_retried) !! 2%nat)
    by (now rewrite H).
  destruct i as [|[|[|i]]]; vm_compute in H0, H2; discriminate.
Qed.

(** C10, amended.  One run of force-complete reads the voice from a stored
    PROCESSING row of the section, not from the caller, and writes the rows
    of that (section_id, voice_id) pair, every one of them: each ends with
    [status = COMPLETE], the script's [audio_url] and the current time as
    [updated_at] and [completed_at], its other columns as stored.  Every row
    of another pair, in particular a PROCESSING row of the same section
    under another voice, and the other tables are left as they were; when a
    single row carries the pair, the store changes at that one position. *)
Theorem force_complete_frame
    (audio_url : string) (now : Z) (section_id voice_id : string) (db : DB) :
  select_processing_voice section_id (story_audio db) = Some voice_id ->
  let db' := fst (recover_audio audio_url now section_id db) in
  let completed (r : AudioRow) :=
    {| sa_section_id := sa_section_id r;
       sa_voice_id := sa_voice_id r;
       sa_status := COMPLETE;
       sa_audio_url := Some audio_url;
       sa_error := sa_error r;
       sa_created_at := sa_created_at r;
       sa_updated_at := now;
       sa_completed_at := Some now |} in
  (exists (i : nat) (r : AudioRow),
     story_audio db !! i = Some r /\
     key_of r = (section_id, voice_id) /\ sa_status r = PROCESSING)
  /\ snd (recover_audio audio_url now section_id db) = Recovered voice_id
  /\ (forall (j : nat) (r : AudioRow),
        story_audio db !! j = Some r ->
        key_of r = (section_id, voice_id) ->
        story_audio db' !! j = Some (completed r))
  /\ (forall (j : nat) (r : AudioRow),
        story_audio db !! j = Some r ->
        key_of r <> (section_id, voice_id) ->
        story_audio db' !! j = Some r)
  /\ (forall (i : nat) (r : AudioRow),
        story_audio db !! i = Some r ->
        key_of r = (section_id, voice_id) ->
        (forall (j : nat) (r' : AudioRow),
           story_audio db !! j = Some r' ->
           key_of r' = (section_id, voice_id) -> j = i) ->
        story_audio db' = <[i := completed r]> (story_audio db))
  /\ length (story_audio db') = length (story_audio db)
  /\ story_sections db' = story_sections db
  /\ story_narrations db' = story_narrations db.
Proof.
  intros Hsel db' completed. subst db'.
  rewrite (recover_audio_found _ _ _ _ _ Hsel). simpl.
  destruct (select_processing_voice_first _ _ _ Hsel)
    as (i & r & Hi & Hk & Hst & _).
  split; [eauto|]. split; [reflexivity|]. split; [|split; [|split; [|split]]].
  - intros j r' Hj Hkj.
    exact (update_complete_hit audio_url now section_id voice_id _ j r' Hj Hkj).
  - intros j r' Hj Hne. now apply update_complete_miss.
  - intros i0 r0 Hi0 Hk0 Honly. inversion Hk0; subst.
    apply (update_complete_only audio_url now _ i0 r0 Hi0).
    intros j r' Hj Hkj. apply (Honly j r' Hj). exact Hkj.
  - unfold update_complete. apply length_map.
  - auto.
Qed.

Lemma force_complete_frame_witness :
  snd (recover_audio "/api/audio/x.wav" 301 "sec-1" db_two_stuck) = Recovered "v-1"
  /\ story_audio (fst (recover_audio "/api/audio/x.wav" 301 "sec-1" db_two_stuck))
       !! O
     = Some (mkAudioRow "sec-1" "v-1" COMPLETE (Some "/api/audio/x.wav") None
               0 301 (Some 301))
  /\ story_audio (fst (recover_audio "/api/audio/x.wav" 301 "sec-1" db_two_stuck))
       !! 1%nat = Some stuck_job_v2.
Proof.
  pose proof (force_complete_frame "/api/audio/x.wav" 301 "sec-1" "v-1"
                db_two_stuck eq_refl) as (_ & Hrep & Hhit & Hframe & _).
  split; [exact Hrep|]. split.
  - apply (Hhit O stuck_job); reflexivity.
  - apply Hframe; [reflexivity | discriminate].
Defined.

(** C2 as stated fails: in the scenario of section 8 (job created at t=0,
    PROCESSING since t=1, force-fail at t=301) the record ends with
    [status = ERROR] and [updated_at = 301], and [completed_at] still null. *)
Lemma force_fail_leaves_completed_at :
  story_audio (fst (reset_stuck_audio at_301 "story-1" db_stuck)) !! O
    = Some (mkAudioRow "sec-1" "v-1" ERROR None
              (Some "Processing timed out (reset by admin)") 0 301 None)
  /\ (sa_completed_at <$>
        story_audio (fst (reset_stuck_audio at_301 "story-1" db_stuck)) !! O)
     <> Some (Some 301).
Proof. split; [reflexivity | discriminate]. Qed.

(** C2, amended.  For every PROCESSING job whose section belongs to the
    story, force-fail sets [status = ERROR], [error] to the fixed
    administrative message and [updated_at] to the clock reading of one of
    the loop's iterations; [completed_at], [audio_url], [created_at] and
    the key keep their stored values. *)
Theorem force_fail_sets_fields
    (clock : nat -> Z) (story_id : string) (db : DB)
    (i : nat) (r : AudioRow) (s : SectionRow) :
  story_audio db !! i = Some r ->
  sa_status r = PROCESSING ->
  In s (story_sections db) ->
  joins story_id r s = true ->
  exists (k : nat) (r' : AudioRow),
    (k < length (select_stuck story_id (story_sections db) (story_audio db)))%nat /\
    story_audio (fst (reset_stuck_audio clock story_id db)) !! i = Some r' /\
    sa_status r' = ERROR /\
    sa_error r' = Some admin_message /\
    sa_updated_at r' = clock k /\
    sa_completed_at r' = sa_completed_at r /\
    sa_audio_url r' = sa_audio_url r /\
    sa_created_at r' = sa_created_at r /\
    key_of r' = key_of r.
Proof.
  intros Hi Hst Hs Hj.
  rewrite story_audio_reset.
  set (rows := select_stuck story_id (story_sections db) (story_audio db)).
  assert (Hin : In (sa_section_id r) rows).
  { apply In_select_stuck. exists r, s. repeat split; auto.
    apply list_elem_of_In, list_elem_of_lookup. eauto. }
  destruct (reset_loop_lookup clock rows 0 _ i r Hi) as [[Hnin _]|(k & Hk & Hl)];
    [contradiction|].
  exists k, (set_error (clock k) r). simpl in Hl.
  split; [eapply lookup_lt_Some; eauto|].
  split; [exact Hl|]. repeat split.
Qed.

Lemma force_fail_sets_fields_witness :
  exists (k : nat) (r' : AudioRow),
    (k < 1)%nat /\
    story_audio (fst (reset_stuck_audio at_301 "story-1" db_stuck)) !! O = Some r' /\
    sa_status r' = ERROR /\
    sa_error r' = Some "Processing timed out (reset by admin)" /\
    sa_updated_at r' = 301 /\
    sa_completed_at r' = None /\
    sa_audio_url r' = None /\
    sa_created_at r' = 0 /\
    key_of r' = ("sec-1", "v-1").
Proof.
  apply (force_fail_sets_fields at_301 "story-1" db_stuck O stuck_job
           (mkSectionRow "sec-1" "story-1" 0)).
  - reflexivity.
  - reflexivity.
  - simpl. now left.
  - reflexivity.
Defined.

(** Rows of the written pair are COMPLETE after the update. *)
Lemma update_complete_completes (u : string) (now : Z) (s v : string)
    (sa : list AudioRow) (i : nat) (r : AudioRow) :
  update_complete u now s v sa !! i = Some r ->
  key_of r = (s, v) -> sa_status r = COMPLETE.
Proof.
  rewrite lookup_update_complete.
  destruct (sa !! i) as [r0|]; simpl; [|discriminate].
  destruct (matches_key s v r0) eqn:Hm; intros [= <-]; [reflexivity|].
  intros Hk. apply matches_key_false in Hm. contradiction.
Qed.

(** X13.  Run twice in a row, the remedies are idempotent.  A run that
    finds no PROCESSING row writes nothing and reports so, which is a normal
    outcome and not an error.  A second run of force-fail right after the
    first finds nothing and leaves the whole database as the first run left
    it.  A second run of force-complete leaves the rows of the recovered
    (section, voice) pair, now COMPLETE, exactly as the first run left
    them, and is a complete no-op when no other voice of the section was
    PROCESSING. *)
Theorem remedies_idempotent
    (audio_url audio_url' : string) (now now' : Z) (clock clock' : nat -> Z)
    (section_id story_id : string) (db : DB) :
  (let db1 := fst (reset_stuck_audio clock story_id db) in
   reset_stuck_audio clock' story_id db1 = (db1, NoStuckEntries))
  /\
  (select_stuck story_id (story_sections db) (story_audio db) = [] ->
   reset_stuck_audio clock story_id db = (db, NoStuckEntries))
  /\
  (select_processing_voice section_id (story_audio db) = None ->
   recover_audio audio_url now section_id db = (db, NoProcessingEntry))
  /\
  (forall voice_id : string,
     select_processing_voice section_id (story_audio db) = Some voice_id ->
     let db1 := fst (recover_audio audio_url now section_id db) in
     (forall (i : nat) (r : AudioRow),
        story_audio db1 !! i = Some r ->
        key_of r = (section_id, voice_id) ->
        sa_status r = COMPLETE /\
        story_audio (fst (recover_audio audio_url' now' section_id db1)) !! i
          = Some r)
     /\
     ((forall (i : nat) (r : AudioRow),
         story_audio db !! i = Some r -> sa_section_id r = section_id ->
         sa_status r = PROCESSING -> sa_voice_id r = voice_id) ->
      recover_audio audio_url' now' section_id db1 = (db1, NoProcessingEntry))).
Proof.
  split; [|split; [|split]].
  - simpl. apply reset_stuck_audio_none.
    rewrite story_sections_reset, story_audio_reset.
    apply select_stuck_after_reset.
  - apply reset_stuck_audio_none.
  - apply recover_audio_not_found.
  - intros v Hsel db1. subst db1.
    rewrite (recover_audio_found _ _ _ _ _ Hsel). simpl.
    set (sa1 := update_complete audio_url now section_id v (story_audio db)).
    set (db1 := with_story_audio db sa1).
    split.
    + intros i r Hi Hk.
      pose proof (update_complete_completes _ _ _ _ _ _ _ Hi Hk) as Hst.
      split; [exact Hst|].
      destruct (select_processing_voice section_id (story_audio db1))
        as [v'|] eqn:Hsel'.
      * rewrite (recover_audio_found _ _ _ _ _ Hsel'). simpl.
        apply update_complete_miss; [exact Hi|].
        intros Hk'. rewrite Hk in Hk'. injection Hk' as <-.
        destruct (select_processing_voice_first _ _ _ Hsel')
          as (j & r' & Hj & Hkj & Hstj & _).
        pose proof (update_complete_completes _ _ _ _ _ _ _ Hj Hkj).
        congruence.
      * rewrite (recover_audio_not_found _ _ _ _ Hsel'). exact Hi.
    + intros Honly. apply recover_audio_not_found.
      apply select_processing_voice_none. intros i r Hi Hs Hst.
      simpl in Hi. unfold sa1 in Hi. rewrite lookup_update_complete in Hi.
      destruct (story_audio db !! i) as [r0|] eqn:H0; simpl in Hi; [|discriminate].
      destruct (matches_key section_id v r0) eqn:Hm; injection Hi as <-.
      * discriminate Hst.
      * apply matches_key_false in Hm. apply Hm.
        unfold key_of. rewrite Hs. f_equal. eapply Honly; eauto.
Qed.

Lemma remedies_idempotent_witness :
  recover_audio "/api/audio/a.wav" 302 "sec-1" db_done = (db_done, NoProcessingEntry)
  /\
  recover_audio "/api/audio/a.wav" 302 "sec-1"
    (fst (recover_audio "/api/audio/a.wav" 301 "sec-1" db_stuck))
  = (fst (recover_audio "/api/audio/a.wav" 301 "sec-1" db_stuck), NoProcessingEntry).
Proof.
  split.
  - apply (remedies_idempotent "/api/audio/a.wav" "/api/audio/a.wav" 302 302
             at_301 at_301 "sec-1" "story-1" db_done).
    reflexivity.
  - apply (remedies_idempotent "/api/audio/a.wav" "/api/audio/a.wav" 301 302
             at_301 at_301 "sec-1" "story-1" db_stuck) with (voice_id := "v-1").
    + reflexivity.
    + intros [|[|i]] r; simpl; try discriminate.
      now intros [= <-].
Defined.

(** C1 as stated fails: neither [UPDATE] tests the status.  The write of
    force-complete for the pair (sec-1, v-2), reaching a store in which that
    job is already COMPLETE, replaces its [audio_url] and its timestamps; a
    run of force-fail on the story rewrites the COMPLETE job of voice v-2
    along with the stuck job of voice v-1. *)
Lemma remedy_write_ignores_status :
  sa_status done_job = COMPLETE
  /\ update_complete "/api/audio/x.wav" 301 "sec-1" "v-2"
        (story_audio db_two_voices) !! O
      = Some (mkAudioRow "sec-1" "v-2" COMPLETE (Some "/api/audio/x.wav") None
                0 301 (Some 301))
  /\ story_audio (fst (reset_stuck_audio at_301 "story-1" db_two_voices)) !! O
      = Some (mkAudioRow "sec-1" "v-2" ERROR (Some "/api/audio/a.wav")
                (Some "Processing timed out (reset by admin)") 0 301 (Some 5))
  /\ ~ Design.guarded_by_processing
        (update_complete "/api/audio/x.wav" 301 "sec-1" "v-2")
  /\ ~ Design.guarded_by_processing (update_error 301 "sec-1").
Proof.
  assert (Hne : sa_status done_job <> PROCESSING) by discriminate.
  split; [reflexivity|]. split; [reflexivity|]. split; [reflexivity|].
  split; intros H;
    pose proof (H (story_audio db_two_voices) O done_job eq_refl Hne) as Hw;
    vm_compute in Hw; discriminate Hw.
Qed.

(** C1, amended.  Each remedy is a read followed by a write.  When the read
    finds no PROCESSING row, nothing is written and the script reports that
    nothing was found, as a normal outcome.  When force-complete finds one,
    its write is selected by the (section_id, voice_id) pair that was read:
    a row of that pair ends with [status = COMPLETE], [audio_url] the
    artifact location and [updated_at] and [completed_at] the current time,
    all together and with its other columns as stored; a row of another pair
    is left as it was.  After a run of force-fail a row is either as it was
    or carries [status = ERROR], the administrative message as [error] and a
    clock reading of the run as [updated_at], all together and with its
    other columns as stored; a PROCESSING row of the story is so written, a
    row of a section without a stuck job is left as it was. *)
Theorem remedy_read_then_write
    (audio_url : string) (now : Z) (clock : nat -> Z)
    (section_id story_id : string) (db : DB) :
  (select_processing_voice section_id (story_audio db) = None ->
   recover_audio audio_url now section_id db = (db, NoProcessingEntry))
  /\
  (select_stuck story_id (story_sections db) (story_audio db) = [] ->
   reset_stuck_audio clock story_id db = (db, NoStuckEntries))
  /\
  (forall voice_id : string,
     select_processing_voice section_id (story_audio db) = Some voice_id ->
     snd (recover_audio audio_url now section_id db) = Recovered voice_id /\
     forall (i : nat) (r : AudioRow),
       story_audio db !! i = Some r ->
       (key_of r = (section_id, voice_id) ->
        story_audio (fst (recover_audio audio_url now section_id db)) !! i
          = Some {| sa_section_id := sa_section_id r;
                    sa_voice_id := sa_voice_id r;
                    sa_status := COMPLETE;
                    sa_audio_url := Some audio_url;
                    sa_error := sa_error r;
                    sa_created_at := sa_created_at r;
                    sa_updated_at := now;
                    sa_completed_at := Some now |}) /\
       (key_of r <> (section_id, voice_id) ->
        story_audio (fst (recover_audio audio_url now section_id db)) !! i
          = Some r))
  /\
  (forall (i : nat) (r : AudioRow),
     story_audio db !! i = Some r ->
     let rows := select_stuck story_id (story_sections db) (story_audio db) in
     let written :=
       exists k : nat,
         (k < length rows)%nat /\
         story_audio (fst (reset_stuck_audio clock story_id db)) !! i
           = Some {| sa_section_id := sa_section_id r;
                     sa_voice_id := sa_voice_id r;
                     sa_status := ERROR;
                     sa_audio_url := sa_audio_url r;
                     sa_error := Some "Processing timed out (reset by admin)";
                     sa_created_at := sa_created_at r;
                     sa_updated_at := clock k;
                     sa_completed_at := sa_completed_at r |} in
     (story_audio (fst (reset_stuck_audio clock story_id db)) !! i = Some r
      \/ written) /\
     (~ In (sa_section_id r) rows ->
      story_audio (fst (reset_stuck_audio clock story_id db)) !! i = Some r) /\
     (sa_status r = PROCESSING -> In (sa_section_id r) rows -> written)).
Proof.
  split; [apply recover_audio_not_found|].
  split; [apply reset_stuck_audio_none|].
  split.
  - intros v Hsel. rewrite (recover_audio_found _ _ _ _ _ Hsel). simpl.
    split; [reflexivity|]. intros i r Hi. split; intros Hk.
    + exact (update_complete_hit audio_url now section_id v _ i r Hi Hk).
    + now apply update_complete_miss.
  - intros i r Hi rows written. subst written.
    rewrite story_audio_reset. fold rows.
    destruct (reset_loop_lookup clock rows 0 _ i r Hi) as [[Hnin Hl]|(k & Hk & Hl)].
    + split; [now left|]. split; [intros _; exact Hl|].
      intros _ Hin. contradiction.
    + assert (Hw : exists k0 : nat,
                (k0 < length rows)%nat /\
                reset_loop clock 0 rows (story_audio db) !! i
                  = Some (set_error (clock k0) r))
        by (exists k; split; [eapply lookup_lt_Some; eauto | exact Hl]).
      split; [right; exact Hw|]. split; [|intros _ _; exact Hw].
      intros Hnin. exfalso. apply Hnin.
      apply list_elem_of_In, list_elem_of_lookup. eauto.
Qed.

Lemma remedy_read_then_write_witness :
  story_audio (fst (recover_audio "/api/audio/x.wav" 301 "sec-1" db_two_voices))
    !! 1%nat
  = Some (mkAudioRow "sec-1" "v-1" COMPLETE (Some "/api/audio/x.wav") None
            0 301 (Some 301))
  /\ (exists k : nat,
        (k < 1)%nat /\
        story_audio (fst (reset_stuck_audio at_301 "story-1" db_two_voices))
          !! 1%nat
        = Some (mkAudioRow "sec-1" "v-1" ERROR None
                  (Some "Processing timed out (reset by admin)") 0 (at_301 k) None))
  /\ recover_audio "/api/audio/x.wav" 301 "sec-1" db_done
     = (db_done, NoProcessingEntry)
  /\ reset_stuck_audio at_301 "story-1" db_done = (db_done, NoStuckEntries).
Proof.
  pose proof (remedy_read_then_write "/api/audio/x.wav" 301 at_301
                "sec-1" "story-1" db_two_voices) as (_ & _ & Hc & Hf).
  pose proof (remedy_read_then_write "/api/audio/x.wav" 301 at_301
                "sec-1" "story-1" db_done) as (Hn1 & Hn2 & _).
  split; [|split; [|split]].
  - apply (proj2 (Hc "v-1" eq_refl) 1%nat stuck_job eq_refl). reflexivity.
  - apply (Hf 1%nat stuck_job eq_refl); [reflexivity | simpl; now left].
  - apply Hn1. reflexivity.
  - apply Hn2. reflexivity.
Defined.

(** The [SET] clauses keep the record invariant on a row that was
    PROCESSING: the broken records of C6 are rows the write of force-fail
    should not have selected. *)
Lemma set_complete_fields_match (u : string) (now : Z) (r : AudioRow) :
  sa_status r = PROCESSING ->
  Design.fields_match_status r = true ->
  Design.fields_match_status (set_complete u now r) = true.
Proof.
  unfold Design.fields_match_status. simpl. intros ->.
  destruct (sa_audio_url r), (sa_error r); simpl; congruence.
Qed.

Lemma set_error_fields_match (now : Z) (r : AudioRow) :
  sa_status r = PROCESSING ->
  Design.fields_match_status r = true ->
  Design.fields_match_status (set_error now r) = true.
Proof.
  unfold Design.fields_match_status. simpl. intros ->.
  destruct (sa_audio_url r), (sa_error r); simpl; congruence.
Qed.

(** C7 fails on the code.  In [db_failed_and_stuck] the job of voice v-3 is
    already in ERROR, the target state of force-fail, with a failure reason
    of its own, and the job of voice v-1 of the same section is stuck.  A
    run of force-fail for the story is no no-op on the job that is already
    in ERROR: its [error] is replaced by the administrative message and its
    [updated_at] by the time of the run. *)
Theorem force_fail_rewrites_failed_job :
  story_audio db_failed_and_stuck !! O
  = Some (mkAudioRow "sec-1" "v-3" ERROR None (Some "synthesis failed") 0 7 (Some 7))
  /\ story_audio (fst (reset_stuck_audio at_301 "story-1" db_failed_and_stuck)) !! O
     = Some (mkAudioRow "sec-1" "v-3" ERROR None
               (Some "Processing timed out (reset by admin)") 0 301 (Some 7))
  /\ story_audio (fst (reset_stuck_audio at_301 "story-1" db_failed_and_stuck)) !! O
     <> story_audio db_failed_and_stuck !! O
  /\ snd (reset_stuck_audio at_301 "story-1" db_failed_and_stuck)
     = ResetSections ["sec-1"].
Proof. repeat split. discriminate. Qed.

(** C6 fails on the code.  The store [db_two_voices] satisfies the record
    invariant; a run of force-fail on its story turns the COMPLETE job of
    voice v-2 into an ERROR record that still carries its [audio_url]. *)
Theorem force_fail_keeps_audio_url :
  forallb Design.fields_match_status (story_audio db_two_voices) = true
  /\ story_audio (fst (reset_stuck_audio at_301 "story-1" db_two_voices))
      = [mkAudioRow "sec-1" "v-2" ERROR (Some "/api/audio/a.wav")
           (Some "Processing timed out (reset by admin)") 0 301 (Some 5);
         mkAudioRow "sec-1" "v-1" ERROR None
           (Some "Processing timed out (reset by admin)") 0 301 None]
  /\ forallb Design.fields_match_status
        (story_audio (fst (reset_stuck_audio at_301 "story-1" db_two_voices)))
      = false.
Proof. repeat split. Qed.

End Recovery.

(** ** The stuck-entry query *)

Module Detector.
Import ResetStuckAudio Scenarios ResetStuckAudioFacts.

Lemma select_stuck_retimed (t : AudioRow -> Z) (story_id : string)
    (ss : list SectionRow) (sa : list AudioRow) :
  select_stuck story_id ss (map (fun r => Design.retimed (t r) r) sa)
  = select_stuck story_id ss sa.
Proof.
  unfold select_stuck. induction sa as [|a sa IH]; simpl; [reflexivity|].
  now rewrite IH.
Qed.

(** C4 as stated fails: the query has no timeout.  With now = 301 and a
    timeout of 300, the PROCESSING job last updated at t = 2
    (= now - timeout + 1) is not stuck in the specification's sense and is
    returned by the query of the script all the same. *)
Lemma stuck_query_returns_recent_job :
  sa_updated_at recent_job = 301 - 300 + 1
  /\ Design.findStuck 301 300 (story_audio db_recent) = []
  /\ select_stuck "story-1" (story_sections db_recent) (story_audio db_recent)
     = ["sec-1"].
Proof. repeat split. Qed.

(** C4, amended.  The query returns exactly the section ids of the jobs with
    [status = PROCESSING] whose section belongs to the story; it reads the
    two tables and writes nothing; [updated_at] plays no role, so a
    PROCESSING job with [updated_at = now - timeout - 1] and one with
    [updated_at = now - timeout + 1] are both returned. *)
Theorem stuck_query_exact
    (story_id : string) (ss : list SectionRow) (sa : list AudioRow) :
  (forall x : string,
     In x (select_stuck story_id ss sa) <->
     exists (a : AudioRow) (s : SectionRow),
       In a sa /\ In s ss /\
       sa_section_id a = ss_id s /\ ss_story_id s = story_id /\
       sa_status a = PROCESSING /\ sa_section_id a = x)
  /\
  (forall t : AudioRow -> Z,
     select_stuck story_id ss (map (fun r => Design.retimed (t r) r) sa)
     = select_stuck story_id ss sa)
  /\
  (forall (now timeout : Z) (a : AudioRow) (s : SectionRow),
     In a sa -> In s ss -> joins story_id a s = true ->
     sa_status a = PROCESSING ->
     sa_updated_at a = now - timeout - 1 \/ sa_updated_at a = now - timeout + 1 ->
     In (sa_section_id a) (select_stuck story_id ss sa)).
Proof.
  split; [|split].
  - intros x. rewrite In_select_stuck. split.
    + intros (a & s & Ha & Hs & Hj & Hst & Hx).
      apply joins_true in Hj as [H1 H2]. exists a, s. repeat split; auto.
    + intros (a & s & Ha & Hs & H1 & H2 & Hst & Hx).
      exists a, s. repeat split; auto. now apply joins_true.
  - intros t. apply select_stuck_retimed.
  - intros now timeout a s Ha Hs Hj Hst _.
    apply In_select_stuck. exists a, s. repeat split; auto.
Qed.

Lemma stuck_query_exact_witness :
  In "sec-1" (select_stuck "story-1" story1_sections [stuck_job])
  /\ In "sec-1" (select_stuck "story-1" story1_sections [recent_job]).
Proof.
  split.
  - apply (proj2 (proj2 (stuck_query_exact "story-1" story1_sections [stuck_job]))
             302 300 stuck_job (mkSectionRow "sec-1" "story-1" 0));
      [now left | now left | reflexivity | reflexivity | now left].
  - apply (proj2 (proj2 (stuck_query_exact "story-1" story1_sections [recent_job]))
             301 300 recent_job (mkSectionRow "sec-1" "story-1" 0));
      [now left | now left | reflexivity | reflexivity | now right].
Defined.

End Detector.

(** ** The status listings *)

Module Listings.
Import CheckStory Scenarios ResetStuckAudioFacts.







(** With section ids unique, a row of [story_audio] joins at most one
    section. *)
Lemma join_one_section {A : Type} (story_id : string) (a : AudioRow) (x : A)
    (ss : list SectionRow) :
  NoDup (map ss_id ss) ->
  flat_map (fun s => if joins story_id a s then [x] else []) ss
  = if existsb (joins story_id a) ss then [x] else [].
Proof.
  induction ss as [|s ss IH]; simpl; [reflexivity|].
  intros Hnd. apply NoDup_cons in Hnd as [Hnin Hnd].
  destruct (joins story_id a s) eqn:Hj; simpl; [|now apply IH].
  f_equal. rewrite (IH Hnd).
  destruct (existsb (joins story_id a) ss) eqn:He; [exfalso|reflexivity].
  apply existsb_exists in He as (s' & Hs' & Hj').
  apply joins_true in Hj as [H1 _]. apply joins_true in Hj' as [H2 _].
  apply Hnin. apply list_elem_of_In. rewrite <- H1, H2. now apply in_map.
Qed.





End Listings.

(** ** The job store and its state machine *)

Module JobStoreFacts.
Import RecoverAudio ResetStuckAudio JobStore Scenarios.
Import RecoverAudioFacts ResetStuckAudioFacts.

Lemma has_key_true (k : string * string) (r : AudioRow) :
  has_key k r = true <-> key_of r = k.
Proof. destruct k as [s v]. apply matches_key_true. Qed.

Lemma active_for_true (k : string * string) (sa : list AudioRow) :
  active_for k sa = true <->
  exists (i : nat) (r : AudioRow),
    sa !! i = Some r /\ key_of r = k /\ terminal (sa_status r) = false.
Proof.
  unfold active_for. rewrite existsb_exists. split.
  - intros (r & Hin & Hr). apply andb_true_iff in Hr as [Hk Ht].
    apply list_elem_of_In, list_elem_of_lookup in Hin as [i Hi].
    exists i, r. repeat split; auto.
    + now apply has_key_true.
    + now apply negb_true_iff.
  - intros (i & r & Hi & Hk & Ht). exists r. split.
    + apply list_elem_of_In, list_elem_of_lookup. eauto.
    + apply andb_true_iff. split; [now apply has_key_true|].
      now apply negb_true_iff.
Qed.

Lemma locate_some (k : string * string) (sa : list AudioRow) (i : nat) :
  locate k sa = Some i -> exists r : AudioRow, sa !! i = Some r /\ key_of r = k.
Proof.
  revert i. induction sa as [|r sa IH]; simpl; intros i; [discriminate|].
  destruct (locate k sa) as [i'|].
  - intros [= <-]. simpl. now apply IH.
  - destruct (has_key k r) eqn:Hk; [|discriminate].
    intros [= <-]. exists r. split; [reflexivity|]. now apply has_key_true.
Qed.

(** A committed [update] rewrites one position, whose stored status was the
    expected one and had an edge to the new one. *)
Lemma update_ok (now : Z) (k : string * string) (expected new : Status)
    (f : Fields) (sa sa' : list AudioRow) :
  update now k expected new f sa = Ok sa' ->
  exists (i : nat) (r : AudioRow),
    sa !! i = Some r /\ key_of r = k /\ sa_status r = expected /\
    edge (sa_status r) new = true /\
    sa' = <[i := apply_update now new f r]> sa.
Proof.
  unfold update. destruct (locate k sa) as [i|] eqn:Hl; [|discriminate].
  destruct (locate_some _ _ _ Hl) as (r & Hi & Hk). rewrite Hi.
  destruct (edge expected new) eqn:He; simpl; [|discriminate].
  destruct (status_eqb (sa_status r) expected) eqn:Hs; simpl; [|discriminate].
  apply status_eqb_eq in Hs.
  intros [= <-]. exists i, r. repeat split; auto. now rewrite Hs.
Qed.


Lemma reach_refl (a : Status) : reach a a = true.
Proof. destruct a; reflexivity. Qed.

(** [reach] is the reflexive-transitive closure of [edge]. *)
Lemma reach_rtc (a b : Status) :
  reach a b = true <-> rtc (fun x y => edge x y = true) a b.
Proof.
  split.
  - destruct a, b; simpl; intros H; try discriminate H;
      first [ apply rtc_refl
            | apply rtc_once; reflexivity
            | (apply rtc_l with PROCESSING; [reflexivity|]);
              apply rtc_once; reflexivity ].
  - induction 1 as [x|x y z Hxy _ IH]; [apply reach_refl|].
    destruct x, y; simpl in Hxy; try discriminate Hxy;
      destruct z; simpl in *; congruence.
Qed.








(** A worker that reports completion after force-fail has run names an
    edge, PROCESSING -> COMPLETE, and finds the job in ERROR: the write is
    stale, not illegal, and the record stays as force-fail left it. *)
Example stale_write_after_force_fail :
  update 400 ("sec-1", "v-1") PROCESSING COMPLETE
    (mkFields (Some "/api/audio/w.wav") None)
    (story_audio (exec (ForceFail at_301 "story-1") db_stuck))
  = Failed StaleStatus.
Proof. reflexivity. Qed.

(** The administrative override is the one way out of a terminal state: a
    run of force-fail moves the COMPLETE job of [db_two_voices] to ERROR. *)
Example force_fail_leaves_terminal_state :
  sa_status <$> story_audio db_two_voices !! O = Some COMPLETE
  /\ sa_status <$> story_audio (exec (ForceFail at_301 "story-1") db_two_voices) !! O
     = Some ERROR.
Proof. split; reflexivity. Qed.

(** The store [db_two_voices] is reached from an empty [story_audio] along
    the worker path. *)
Example db_two_voices_reachable :
  run [Create 0 ("sec-1", "v-2");
       Update 1 ("sec-1", "v-2") PENDING PROCESSING (mkFields None None);
       Update 5 ("sec-1", "v-2") PROCESSING COMPLETE
         (mkFields (Some "/api/audio/a.wav") None);
       Create 0 ("sec-1", "v-1");
       Update 1 ("sec-1", "v-1") PENDING PROCESSING (mkFields None None)]
      (mkDB [] story1_sections [])
  = db_two_voices.
Proof. reflexivity. Qed.

(** The store [db_retried], with two records for each pair, is reached from
    an empty [story_audio] along the worker path. *)
Example db_retried_reachable :
  run [Create 0 ("sec-1", "v-1");
       Create 0 ("sec-1", "v-2");
       Update 1 ("sec-1", "v-1") PENDING PROCESSING (mkFields None None);
       Update 2 ("sec-1", "v-2") PENDING PROCESSING (mkFields None None);
       Update 3 ("sec-1", "v-1") PROCESSING ERROR
         (mkFields None (Some "synthesis failed"));
       Update 4 ("sec-1", "v-2") PROCESSING ERROR
         (mkFields None (Some "synthesis failed"));
       Create 10 ("sec-1", "v-1");
       Create 10 ("sec-1", "v-2");
       Update 11 ("sec-1", "v-1") PENDING PROCESSING (mkFields None None);
       Update 12 ("sec-1", "v-2") PENDING PROCESSING (mkFields None None)]
      (mkDB [] story1_sections [])
  = db_retried.
Proof. reflexivity. Qed.

(** Non-terminal rows that were already non-terminal, under the same key and
    at the same position, keep the keys' active jobs unique. *)
Lemma one_active_preserved (sa sa' : list AudioRow) :
  (forall (i : nat) (r' : AudioRow),
     sa' !! i = Some r' -> terminal (sa_status r') = false ->
     exists r : AudioRow,
       sa !! i = Some r /\ key_of r = key_of r' /\ terminal (sa_status r) = false) ->
  one_active_per_key sa -> one_active_per_key sa'.
Proof.
  intros Hback Hinv i j r1 r2 Hi Hj Hk Ht1 Ht2.
  destruct (Hback i r1 Hi Ht1) as (a1 & Ha1 & Hk1 & Hta1).
  destruct (Hback j r2 Hj Ht2) as (a2 & Ha2 & Hk2 & Hta2).
  apply (Hinv i j a1 a2); auto. congruence.
Qed.

Lemma key_of_fresh_job (now : Z) (k : string * string) :
  key_of (fresh_job now k) = k.
Proof. now destruct k. Qed.

Lemma create_preserves (now : Z) (k : string * string) (sa sa' : list AudioRow) :
  create now k sa = Ok sa' -> one_active_per_key sa -> one_active_per_key sa'.
Proof.
  unfold create. destruct (active_for k sa) eqn:Hact; [discriminate|].
  intros [= <-] Hinv i j r1 r2 Hi Hj Hk Ht1 Ht2.
  assert (Hnone : forall (n : nat) (r : AudioRow),
            sa !! n = Some r -> key_of r = k -> terminal (sa_status r) = false -> False).
  { intros n r Hn Hkr Htr.
    assert (active_for k sa = true) by (apply active_for_true; eauto).
    congruence. }
  apply lookup_app_Some in Hi as [Hi|[Hli Hi]];
    apply lookup_app_Some in Hj as [Hj|[Hlj Hj]].
  - now apply (Hinv i j r1 r2).
  - exfalso. destruct (j - length sa)%nat; simpl in Hj; [|discriminate].
    injection Hj as <-. rewrite key_of_fresh_job in Hk.
    apply (Hnone i r1 Hi); auto.
  - exfalso. destruct (i - length sa)%nat; simpl in Hi; [|discriminate].
    injection Hi as <-. rewrite key_of_fresh_job in Hk.
    apply (Hnone j r2 Hj); auto.
  - destruct (i - length sa)%nat eqn:Ei; simpl in Hi; [|discriminate].
    destruct (j - length sa)%nat eqn:Ej; simpl in Hj; [|discriminate].
    lia.
Qed.

Lemma update_preserves (now : Z) (k : string * string) (expected new : Status)
    (f : Fields) (sa sa' : list AudioRow) :
  update now k expected new f sa = Ok sa' ->
  one_active_per_key sa -> one_active_per_key sa'.
Proof.
  intros Hu. apply update_ok in Hu as (i0 & r0 & H0 & _ & _ & He & ->).
  apply one_active_preserved. intros i r' Hi Ht.
  destruct (decide (i0 = i)) as [->|Hne].
  - rewrite list_lookup_insert_eq in Hi by (eapply lookup_lt_Some; eauto).
    injection Hi as <-. exists r0. repeat split; auto.
    simpl in Ht. destruct (sa_status r0), new; simpl in *; congruence.
  - rewrite list_lookup_insert_ne in Hi by assumption. exists r'. auto.
Qed.

Lemma recover_preserves (u : string) (now : Z) (s : string) (db : DB) :
  one_active_per_key (story_audio db) ->
  one_active_per_key (story_audio (fst (recover_audio u now s db))).
Proof.
  unfold recover_audio.
  destruct (select_processing_voice s (story_audio db)) as [v|]; simpl; [|auto].
  apply one_active_preserved. intros i r' Hi Ht.
  rewrite lookup_update_complete in Hi.
  destruct (story_audio db !! i) as [r|]; simpl in Hi; [|discriminate].
  destruct (matches_key s v r); injection Hi as <-; [discriminate Ht|].
  exists r. auto.
Qed.

Lemma reset_preserves (clock : nat -> Z) (story_id : string) (db : DB) :
  one_active_per_key (story_audio db) ->
  one_active_per_key (story_audio (fst (reset_stuck_audio clock story_id db))).
Proof.
  rewrite story_audio_reset.
  apply one_active_preserved. intros i r' Hi Ht.
  destruct (reset_loop_lookup_inv _ _ _ _ _ _ Hi) as [r Hr].
  destruct (reset_loop_lookup clock
              (select_stuck story_id (story_sections db) (story_audio db))
              0 _ i r Hr) as [[_ Hl]|(j & _ & Hl)];
    rewrite Hl in Hi; injection Hi as <-.
  - exists r. auto.
  - discriminate Ht.
Qed.

Lemma exec_preserves (op : Op) (db : DB) :
  one_active_per_key (story_audio db) ->
  one_active_per_key (story_audio (exec op db)).
Proof.
  intros Hinv. destruct op as [now k|now k expected new f|u now s|clock story];
    simpl.
  - destruct (create now k (story_audio db)) as [sa'|e] eqn:Hc; simpl; auto.
    eapply create_preserves; eauto.
  - destruct (update now k expected new f (story_audio db)) as [sa'|e] eqn:Hu;
      simpl; auto.
    eapply update_preserves; eauto.
  - now apply recover_preserves.
  - now apply reset_preserves.
Qed.

Lemma run_preserves (ops : list Op) :
  forall db : DB,
    one_active_per_key (story_audio db) ->
    one_active_per_key (story_audio (run ops db)).
Proof.
  induction ops as [|op ops IH]; intros db Hinv; simpl; auto.
  apply IH. now apply exec_preserves.
Qed.

(** C9.  [create] fails with [DuplicateActiveJob] exactly when a
    non-terminal job (PENDING or PROCESSING) exists for the key, and fails
    in no other way; when every job of the key is terminal it succeeds and
    appends a new PENDING record, leaving the stored records as they were;
    hence every sequence of operations, the administrative ones included,
    keeps at most one non-terminal job per (section, voice) pair. *)
Theorem create_rejects_duplicates :
  (forall (now : Z) (k : string * string) (sa : list AudioRow),
     create now k sa = Failed DuplicateActiveJob <->
     exists (i : nat) (r : AudioRow),
       sa !! i = Some r /\ key_of r = k /\ terminal (sa_status r) = false)
  /\
  (forall (now : Z) (k : string * string) (sa : list AudioRow) (e : StoreError),
     create now k sa = Failed e -> e = DuplicateActiveJob)
  /\
  (forall (now : Z) (k : string * string) (sa : list AudioRow),
     (forall (i : nat) (r : AudioRow),
        sa !! i = Some r -> key_of r = k -> terminal (sa_status r) = true) ->
     create now k sa = Ok (sa ++ [fresh_job now k])%list)
  /\
  (forall (op : Op) (db : DB),
     one_active_per_key (story_audio db) ->
     one_active_per_key (story_audio (exec op db)))
  /\
  (forall (ops : list Op) (db : DB),
     story_audio db = [] ->
     one_active_per_key (story_audio (run ops db))).
Proof.
  split; [|split; [|split; [|split]]].
  - intros now k sa. rewrite <- active_for_true. unfold create.
    destruct (active_for k sa); split; congruence.
  - intros now k sa e. unfold create.
    destruct (active_for k sa); congruence.
  - intros now k sa Hterm. unfold create.
    destruct (active_for k sa) eqn:Hact; [exfalso|reflexivity].
    apply active_for_true in Hact as (i & r & Hi & Hk & Ht).
    rewrite (Hterm i r Hi Hk) in Ht. discriminate.
  - apply exec_preserves.
  - intros ops db Hempty. apply run_preserves. rewrite Hempty.
    intros i j r1 r2 Hi. rewrite lookup_nil in Hi. discriminate.
Qed.

Lemma create_rejects_duplicates_witness :
  create 10 ("sec-1", "v-2") (story_audio db_done)
  = Ok (story_audio db_done ++ [fresh_job 10 ("sec-1", "v-2")])%list
  /\ create 10 ("sec-1", "v-1") (story_audio db_stuck) = Failed DuplicateActiveJob.
Proof.
  split.
  - apply (proj1 (proj2 (proj2 create_rejects_duplicates))).
    intros [|i] r; simpl; [|discriminate]. now intros [= <-].
  - apply (proj1 create_rejects_duplicates).
    exists O, stuck_job. repeat split.
Defined.

End JobStoreFacts.

(** ** What a run of a remedy leaves behind *)

Module RemedyRuns.
Import RecoverAudio ResetStuckAudio ScriptRuns Scenarios.
Import RecoverAudioFacts ResetStuckAudioFacts.

Lemma last_index_of_none (x : string) (rows : list string) :
  last_index_of x rows = None <-> ~ In x rows.
Proof.
  induction rows as [|y rows IH]; simpl; [tauto|].
  destruct (last_index_of x rows) as [j|].
  - split; [discriminate|]. intros H. exfalso.
    assert (Hn : ~ In x rows) by tauto.
    apply IH in Hn. discriminate.
  - destruct (y =? x) eqn:Hy.
    + apply String.eqb_eq in Hy. split; [discriminate|]. intros H. tauto.
    + apply String.eqb_neq in Hy. split; [|reflexivity].
      intros _ [H|H]; [congruence|]. now apply (proj1 IH).
Qed.


(** The loop in closed form: a row ends as the [SET] clause of the last
    iteration that names its section leaves it. *)
Lemma reset_loop_closed_form (clock : nat -> Z) (rows : list string) :
  forall (k : nat) (sa : list AudioRow) (i : nat) (r : AudioRow),
    sa !! i = Some r ->
    reset_loop clock k rows sa !! i =
    Some (match last_index_of (sa_section_id r) rows with
          | Some j => set_error (clock (k + j)%nat) r
          | None => r
          end).
Proof.
  induction rows as [|y rows IH]; intros k sa i r Hi; simpl; [exact Hi|].
  set (r1 := if sa_section_id r =? y then set_error (clock k) r else r).
  assert (H1 : update_error (clock k) y sa !! i = Some r1)
    by (rewrite lookup_update_error, Hi; reflexivity).
  assert (Hsec : sa_section_id r1 = sa_section_id r)
    by (unfold r1; destruct (sa_section_id r =? y); reflexivity).
  rewrite (IH (S k) _ i r1 H1), Hsec.
  destruct (last_index_of (sa_section_id r) rows) as [j|].
  - replace (k + S j)%nat with (S k + j)%nat by lia.
    unfold r1. destruct (sa_section_id r =? y); reflexivity.
  - rewrite String.eqb_sym. unfold r1.
    destruct (sa_section_id r =? y); [|reflexivity].
    now rewrite Nat.add_0_r.
Qed.

(** A row that joins a section of the story is not PROCESSING once the
    loop has run. *)
Lemma no_processing_after_reset
    (clock : nat -> Z) (story_id : string) (db : DB)
    (i : nat) (r : AudioRow) (s : SectionRow) :
  story_audio (fst (reset_stuck_audio clock story_id db)) !! i = Some r ->
  In s (story_sections db) ->
  joins story_id r s = true ->
  sa_status r <> PROCESSING.
Proof.
  intros Hi Hs Hj Hst.
  rewrite story_audio_reset in Hi.
  pose proof (select_stuck_after_reset clock story_id (story_sections db)
                (story_audio db)) as Hnone.
  assert (Hin : In (sa_section_id r)
                  (select_stuck story_id (story_sections db)
                     (reset_loop clock 0
                        (select_stuck story_id (story_sections db) (story_audio db))
                        (story_audio db)))).
  { apply In_select_stuck. exists r, s. repeat split; auto.
    apply list_elem_of_In, list_elem_of_lookup. eauto. }
  rewrite Hnone in Hin. exact Hin.
Qed.

(** X1.  After a run of force-fail no job of the story is PROCESSING:
    every row whose section is a section of the story is PENDING, COMPLETE
    or ERROR. *)
Theorem reset_leaves_no_processing
    (clock : nat -> Z) (story_id : string) (db : DB)
    (i : nat) (r : AudioRow) (s : SectionRow) :
  story_audio (fst (reset_stuck_audio clock story_id db)) !! i = Some r ->
  In s (story_sections db) ->
  sa_section_id r = ss_id s -> ss_story_id s = story_id ->
  sa_status r = PENDING \/ sa_status r = COMPLETE \/ sa_status r = ERROR.
Proof.
  intros Hi Hs Hid Hstory.
  assert (Hne : sa_status r <> PROCESSING).
  { apply (no_processing_after_reset clock story_id db i r s Hi Hs).
    apply joins_true. auto. }
  destruct (sa_status r); auto. contradiction.
Qed.

Lemma reset_leaves_no_processing_witness :
  let r := mkAudioRow "sec-1" "v-1" ERROR None
             (Some "Processing timed out (reset by admin)") 0 301 None in
  sa_status r = PENDING \/ sa_status r = COMPLETE \/ sa_status r = ERROR.
Proof.
  apply (reset_leaves_no_processing at_301 "story-1" db_two_voices 1%nat _
           (mkSectionRow "sec-1" "story-1" 0)).
  - reflexivity.
  - simpl. now left.
  - reflexivity.
  - reflexivity.
Defined.

(** X2.  The write of force-fail reaches every row that shares its section
    with a stuck job of the story, whatever the row's voice and status: the
    row ends in ERROR with the administrative message, its voice,
    [audio_url] and [completed_at] as stored. *)
Theorem reset_rewrites_whole_section
    (clock : nat -> Z) (story_id : string) (db : DB)
    (a : AudioRow) (s : SectionRow) (i : nat) (r : AudioRow) :
  In a (story_audio db) ->
  sa_status a = PROCESSING ->
  In s (story_sections db) ->
  joins story_id a s = true ->
  story_audio db !! i = Some r ->
  sa_section_id r = sa_section_id a ->
  exists r' : AudioRow,
    story_audio (fst (reset_stuck_audio clock story_id db)) !! i = Some r' /\
    sa_status r' = ERROR /\
    sa_error r' = Some admin_message /\
    key_of r' = key_of r /\
    sa_audio_url r' = sa_audio_url r /\
    sa_completed_at r' = sa_completed_at r.
Proof.
  intros Ha Hst Hs Hj Hi Hsec.
  rewrite story_audio_reset.
  set (rows := select_stuck story_id (story_sections db) (story_audio db)).
  assert (Hin : In (sa_section_id r) rows).
  { rewrite Hsec. apply In_select_stuck. exists a, s. repeat split; auto. }
  rewrite (reset_loop_closed_form clock rows 0 _ i r Hi).
  destruct (last_index_of (sa_section_id r) rows) as [j|] eqn:Hl.
  - exists (set_error (clock (0 + j)%nat) r). repeat split.
  - apply last_index_of_none in Hl. contradiction.
Qed.

Lemma reset_rewrites_whole_section_witness :
  exists r' : AudioRow,
    story_audio (fst (reset_stuck_audio at_301 "story-1" db_two_voices)) !! O
      = Some r' /\
    sa_status r' = ERROR /\
    sa_error r' = Some admin_message /\
    key_of r' = ("sec-1", "v-2") /\
    sa_audio_url r' = Some "/api/audio/a.wav" /\
    sa_completed_at r' = Some 5.
Proof.
  apply (reset_rewrites_whole_section at_301 "story-1" db_two_voices
           stuck_job (mkSectionRow "sec-1" "story-1" 0) O done_job).
  - simpl. right. now left.
  - reflexivity.
  - simpl. now left.
  - reflexivity.
  - reflexivity.
  - reflexivity.
Defined.



(** X3.  Neither remedy adds, deletes or moves a row, changes a key or a
    [created_at], or writes another table; force-complete leaves [error] as
    stored, force-fail leaves [audio_url] and [completed_at] as stored. *)
Theorem remedies_keep_rows
    (audio_url : string) (now : Z) (clock : nat -> Z)
    (section_id story_id : string) (db : DB) :
  let d1 := fst (recover_audio audio_url now section_id db) in
  let d2 := fst (reset_stuck_audio clock story_id db) in
  length (story_audio d1) = length (story_audio db) /\
  length (story_audio d2) = length (story_audio db) /\
  story_sections d1 = story_sections db /\
  story_sections d2 = story_sections db /\
  story_narrations d1 = story_narrations db /\
  story_narrations d2 = story_narrations db /\
  forall (i : nat) (r : AudioRow),
    story_audio db !! i = Some r ->
    exists r1 r2 : AudioRow,
      story_audio d1 !! i = Some r1 /\ story_audio d2 !! i = Some r2 /\
      key_of r1 = key_of r /\ key_of r2 = key_of r /\
      sa_created_at r1 = sa_created_at r /\ sa_created_at r2 = sa_created_at r /\
      sa_error r1 = sa_error r /\
      sa_audio_url r2 = sa_audio_url r /\
      sa_completed_at r2 = sa_completed_at r.
Proof.
  intros d1 d2.
  assert (Hd1 : story_audio d1 = story_audio db \/
                exists v, story_audio d1
                          = update_complete audio_url now section_id v (story_audio db)).
  { unfold d1, recover_audio.
    destruct (select_processing_voice section_id (story_audio db)) as [v|];
      simpl; eauto. }
  assert (Hs1 : story_sections d1 = story_sections db /\
                story_narrations d1 = story_narrations db).
  { unfold d1, recover_audio.
    destruct (select_processing_voice section_id (story_audio db)); auto. }
  assert (Hs2 : story_narrations d2 = story_narrations db).
  { unfold d2, reset_stuck_audio.
    destruct (select_stuck story_id (story_sections db) (story_audio db)); auto. }
  split; [|split; [|split; [|split; [|split; [|split]]]]].
  - destruct Hd1 as [->|[v ->]]; [reflexivity|].
    unfold update_complete. apply length_map.
  - unfold d2. rewrite story_audio_reset. apply length_reset_loop.
  - apply Hs1.
  - apply story_sections_reset.
  - apply Hs1.
  - exact Hs2.
  - intros i r Hi.
    assert (H1 : exists r1, story_audio d1 !! i = Some r1 /\ key_of r1 = key_of r /\
                   sa_created_at r1 = sa_created_at r /\ sa_error r1 = sa_error r).
    { destruct Hd1 as [->|[v ->]]; [exists r; auto|].
      rewrite lookup_update_complete, Hi. simpl.
      destruct (matches_key section_id v r); eexists; repeat split. }
    destruct H1 as (r1 & Hr1 & Hk1 & Hc1 & He1).
    unfold d2. rewrite story_audio_reset.
    rewrite (reset_loop_closed_form clock _ 0 _ i r Hi).
    destruct (last_index_of (sa_section_id r)
                (select_stuck story_id (story_sections db) (story_audio db)));
      eexists r1, _; repeat split; auto.
Qed.

Lemma remedies_keep_rows_witness :
  exists r1 r2 : AudioRow,
    story_audio (fst (recover_audio "/api/audio/x.wav" 301 "sec-1" db_failed_and_stuck))
      !! O = Some r1 /\
    story_audio (fst (reset_stuck_audio at_301 "story-1" db_failed_and_stuck))
      !! O = Some r2 /\
    key_of r1 = ("sec-1", "v-3") /\ key_of r2 = ("sec-1", "v-3") /\
    sa_created_at r1 = 0 /\ sa_created_at r2 = 0 /\
    sa_error r1 = Some "synthesis failed" /\
    sa_audio_url r2 = None /\
    sa_completed_at r2 = Some 7.
Proof.
  pose proof (remedies_keep_rows "/api/audio/x.wav" 301 at_301 "sec-1" "story-1"
                db_failed_and_stuck) as H.
  simpl in H. destruct H as (_ & _ & _ & _ & _ & _ & H).
  apply (H O failed_job). reflexivity.
Defined.

(** Once per stuck job, in the order in which the model scans
    [story_audio]. *)
Lemma select_stuck_filter
    (story_id : string) (ss : list SectionRow) (sa : list AudioRow) :
  NoDup (map ss_id ss) ->
  select_stuck story_id ss sa =
  map sa_section_id
    (List.filter (fun a => status_eqb (sa_status a) PROCESSING
                           && existsb (joins story_id a) ss) sa).
Proof.
  intros Hnd. unfold select_stuck.
  induction sa as [|a sa IH]; simpl; [reflexivity|]. rewrite IH.
  destruct (status_eqb (sa_status a) PROCESSING) eqn:Hst; simpl.
  - assert (Hin : flat_map (fun s => if joins story_id a s && true
                                      then [sa_section_id a] else []) ss
                  = flat_map (fun s => if joins story_id a s
                                       then [sa_section_id a] else []) ss).
    { apply flat_map_ext. intros s. now rewrite andb_true_r. }
    rewrite Hin, (Listings.join_one_section _ _ _ _ Hnd).
    destruct (existsb (joins story_id a) ss); reflexivity.
  - assert (Hin : flat_map (fun s => if joins story_id a s && false
                                      then [sa_section_id a] else []) ss = []).
    { clear. induction ss as [|s ss IHs]; simpl; [reflexivity|].
      now rewrite andb_false_r. }
    now rewrite Hin.
Qed.

(** X5.  With section ids unique in [story_sections], the stuck-entry query
    returns one row per stuck job, whatever the order of its rows: the
    count the script prints is the number of PROCESSING jobs of the story,
    and a section stuck under several voices is fetched, and then updated,
    once per voice. *)
Theorem select_stuck_one_per_job
    (story_id : string) (ss : list SectionRow) (sa : list AudioRow) :
  NoDup (map ss_id ss) ->
  let stuck :=
    List.filter (fun a => status_eqb (sa_status a) PROCESSING
                          && existsb (joins story_id a) ss) sa in
  Permutation (select_stuck story_id ss sa) (map sa_section_id stuck) /\
  length (select_stuck story_id ss sa) = length stuck /\
  forall section_id : string,
    count_occ string_dec (select_stuck story_id ss sa) section_id
    = length (List.filter (fun a => sa_section_id a =? section_id) stuck).
Proof.
  intros Hnd stuck. rewrite (select_stuck_filter _ _ _ Hnd). fold stuck.
  split; [reflexivity|]. split; [apply length_map|].
  intros x. induction stuck as [|a l IH]; simpl; [reflexivity|].
  destruct (string_dec (sa_section_id a) x) as [Heq|Hne].
  - rewrite (proj2 (String.eqb_eq _ _) Heq). simpl. now rewrite IH.
  - rewrite (proj2 (String.eqb_neq _ _) Hne). exact IH.
Qed.

Lemma select_stuck_one_per_job_witness :
  length (select_stuck "story-1" (story_sections db_two_stuck)
            (story_audio db_two_stuck)) = 2%nat
  /\ count_occ string_dec
       (select_stuck "story-1" (story_sections db_two_stuck)
          (story_audio db_two_stuck)) "sec-1" = 2%nat.
Proof.
  assert (Hnd : NoDup (map ss_id (story_sections db_two_stuck))).
  { change (NoDup ["sec-1"]). apply (bool_decide_unpack _). vm_compute. exact I. }
  pose proof (select_stuck_one_per_job "story-1" (story_sections db_two_stuck)
                (story_audio db_two_stuck) Hnd) as (_ & Hlen & Hcount).
  split; [rewrite Hlen; reflexivity | rewrite Hcount; reflexivity].
Defined.

(** X6.  Force-fail first, force-complete second: once force-fail has run
    for a story, force-complete run for any section of that story finds no
    PROCESSING row and changes nothing. *)
Theorem recover_after_reset_finds_nothing
    (clock : nat -> Z) (story_id : string) (db : DB)
    (audio_url : string) (now : Z) (s : SectionRow) :
  In s (story_sections db) ->
  ss_story_id s = story_id ->
  recover_audio audio_url now (ss_id s) (fst (reset_stuck_audio clock story_id db))
  = (fst (reset_stuck_audio clock story_id db), NoProcessingEntry).
Proof.
  intros Hs Hstory. apply recover_audio_not_found.
  apply select_processing_voice_none. intros i r Hi Hsec.
  apply (no_processing_after_reset clock story_id db i r s Hi Hs).
  apply joins_true. auto.
Qed.

Lemma recover_after_reset_finds_nothing_witness :
  recover_audio "/api/audio/x.wav" 302 "sec-1"
    (fst (reset_stuck_audio at_301 "story-1" db_two_stuck))
  = (fst (reset_stuck_audio at_301 "story-1" db_two_stuck), NoProcessingEntry).
Proof.
  apply (recover_after_reset_finds_nothing at_301 "story-1" db_two_stuck
           "/api/audio/x.wav" 302 (mkSectionRow "sec-1" "story-1" 0)).
  - simpl. now left.
  - reflexivity.
Defined.




Lemma filter_map_length_le {A : Type} (p : A -> bool) (f : A -> A) (l : list A) :
  (forall x, p (f x) = true -> p x = true) ->
  (length (List.filter p (map f l)) <= length (List.filter p l))%nat.
Proof.
  intros Hp. induction l as [|x l IH]; simpl; [lia|].
  destruct (p (f x)) eqn:Hfx.
  - rewrite (Hp x Hfx). simpl. lia.
  - destruct (p x); simpl; lia.
Qed.

Lemma filter_map_length_lt {A : Type} (p : A -> bool) (f : A -> A) (l : list A)
    (i : nat) (x : A) :
  (forall y, p (f y) = true -> p y = true) ->
  l !! i = Some x -> p x = true -> p (f x) = false ->
  (length (List.filter p (map f l)) < length (List.filter p l))%nat.
Proof.
  intros Hp. revert i. induction l as [|y l IH]; intros [|i]; simpl;
    try discriminate.
  - intros [= ->] Hx Hfx. rewrite Hx, Hfx. simpl.
    pose proof (filter_map_length_le p f l Hp). lia.
  - intros Hi Hx Hfx. specialize (IH i Hi Hx Hfx).
    destruct (p (f y)) eqn:Hfy.
    + rewrite (Hp y Hfy). simpl. lia.
    + destruct (p y); simpl; lia.
Qed.

Lemma processing_count_zero (s : string) (sa : list AudioRow) :
  processing_count s sa = O <-> select_processing_voice s sa = None.
Proof.
  unfold processing_count, select_processing_voice.
  induction sa as [|a sa IH]; simpl; [tauto|].
  destruct (is_processing_of s a); simpl; [split; discriminate|exact IH].
Qed.

(** A run that finds a row leaves fewer PROCESSING rows in the section. *)
Lemma processing_count_recover (u : string) (now : Z) (s v : string)
    (sa : list AudioRow) :
  select_processing_voice s sa = Some v ->
  (processing_count s (update_complete u now s v sa) < processing_count s sa)%nat.
Proof.
  intros Hsel.
  destruct (select_processing_voice_first _ _ _ Hsel) as (i & r & Hi & Hk & Hst & _).
  unfold processing_count, update_complete.
  apply filter_map_length_lt with (i := i) (x := r); auto.
  - intros y. destruct (matches_key s v y); [|auto].
    unfold is_processing_of. simpl. now rewrite andb_false_r.
  - apply is_processing_of_true. inversion Hk. auto.
  - rewrite (proj2 (matches_key_true s v r) Hk).
    unfold is_processing_of. simpl. now rewrite andb_false_r.
Qed.

(** A row completed with the script's [audio_url] stays so under further
    runs. *)
Lemma recover_runs_keep_complete (u : string) (s : string) (nows : list Z) :
  forall (db : DB) (i : nat) (r : AudioRow),
    story_audio db !! i = Some r ->
    sa_status r = COMPLETE -> sa_audio_url r = Some u ->
    exists r' : AudioRow,
      story_audio (recover_runs u nows s db) !! i = Some r' /\
      sa_status r' = COMPLETE /\ sa_audio_url r' = Some u /\
      key_of r' = key_of r.
Proof.
  induction nows as [|now nows IH]; intros db i r Hi Hst Hu; simpl.
  - exists r. auto.
  - destruct (select_processing_voice s (story_audio db)) as [v|] eqn:Hsel;
      [rewrite (recover_audio_found _ _ _ _ _ Hsel)
      |rewrite (recover_audio_not_found _ _ _ _ Hsel)]; simpl.
    + assert (H1 : exists r1, update_complete u now s v (story_audio db) !! i = Some r1
                     /\ sa_status r1 = COMPLETE /\ sa_audio_url r1 = Some u
                     /\ key_of r1 = key_of r).
      { rewrite lookup_update_complete, Hi. simpl.
        destruct (matches_key s v r); eexists; repeat split; auto. }
      destruct H1 as (r1 & H1 & Hs1 & Hu1 & Hk1).
      destruct (IH (with_story_audio db (update_complete u now s v (story_audio db)))
                  i r1 H1 Hs1 Hu1) as (r' & Hr' & Hs' & Hu' & Hk').
      exists r'. repeat split; auto. congruence.
    + now apply IH.
Qed.

(** X8.  Run again and again as it is, force-complete drains the section:
    each run that finds a row leaves fewer PROCESSING rows, so after as many
    runs as the section had PROCESSING rows the script finds nothing more,
    and every row of the section that was PROCESSING, under whatever voice,
    is COMPLETE with the one [audio_url] written in the script. *)
Theorem recover_runs_drain (audio_url section_id : string) (nows : list Z) :
  forall db : DB,
    (processing_count section_id (story_audio db) <= length nows)%nat ->
    select_processing_voice section_id
      (story_audio (recover_runs audio_url nows section_id db)) = None /\
    forall (i : nat) (r : AudioRow),
      story_audio db !! i = Some r ->
      sa_section_id r = section_id -> sa_status r = PROCESSING ->
      exists r' : AudioRow,
        story_audio (recover_runs audio_url nows section_id db) !! i = Some r' /\
        sa_status r' = COMPLETE /\ sa_audio_url r' = Some audio_url /\
        key_of r' = key_of r.
Proof.
  induction nows as [|now nows IH]; intros db Hcount; simpl in *.
  - assert (Hz : processing_count section_id (story_audio db) = O) by lia.
    apply processing_count_zero in Hz. split; [exact Hz|].
    intros i r Hi Hs Hst. exfalso.
    exact (proj1 (select_processing_voice_none _ _) Hz i r Hi Hs Hst).
  - destruct (select_processing_voice section_id (story_audio db)) as [v|] eqn:Hsel;
      [rewrite (recover_audio_found _ _ _ _ _ Hsel)
      |rewrite (recover_audio_not_found _ _ _ _ Hsel)]; simpl.
    + pose proof (processing_count_recover audio_url now _ _ _ Hsel) as Hlt.
      set (db1 := with_story_audio db
                    (update_complete audio_url now section_id v (story_audio db))).
      destruct (IH db1) as [Hnone Hrows]; [simpl; lia|].
      split; [exact Hnone|]. intros i r Hi Hs Hst.
      destruct (matches_key section_id v r) eqn:Hm.
      * assert (H1 : story_audio db1 !! i = Some (set_complete audio_url now r)).
        { simpl. rewrite lookup_update_complete, Hi. simpl. now rewrite Hm. }
        destruct (recover_runs_keep_complete audio_url section_id nows db1 i _ H1
                    eq_refl eq_refl) as (r' & Hr' & Hs' & Hu' & Hk').
        exists r'. auto.
      * assert (H1 : story_audio db1 !! i = Some r).
        { simpl. rewrite lookup_update_complete, Hi. simpl. now rewrite Hm. }
        exact (Hrows i r H1 Hs Hst).
    + apply processing_count_zero in Hsel as Hz.
      destruct (IH db) as [Hnone Hrows]; [lia|]. split; [exact Hnone|].
      intros i r Hi Hs Hst. exfalso.
      exact (proj1 (select_processing_voice_none _ _) Hsel i r Hi Hs Hst).
Qed.

Lemma recover_runs_drain_witness :
  select_processing_voice "sec-1"
    (story_audio (recover_runs "/api/audio/x.wav" [301; 302] "sec-1" db_two_stuck))
  = None.
Proof.
  apply (recover_runs_drain "/api/audio/x.wav" "sec-1" [301; 302] db_two_stuck).
  vm_compute. lia.
Defined.

Lemma fst_reset_stuck_audio (clock : nat -> Z) (story_id : string) (db : DB) :
  fst (reset_stuck_audio clock story_id db) =
  with_story_audio db
    (reset_loop clock 0
       (select_stuck story_id (story_sections db) (story_audio db))
       (story_audio db)).
Proof.
  unfold reset_stuck_audio.
  destruct (select_stuck story_id (story_sections db) (story_audio db));
    [destruct db|]; reflexivity.
Qed.

Lemma snd_reset_stuck_audio (clock : nat -> Z) (story_id : string) (db : DB) :
  snd (reset_stuck_audio clock story_id db) =
  match select_stuck story_id (story_sections db) (story_audio db) with
  | [] => NoStuckEntries
  | rows => ResetSections rows
  end.
Proof.
  unfold reset_stuck_audio.
  destruct (select_stuck story_id (story_sections db) (story_audio db));
    reflexivity.
Qed.

(** The update of force-complete on a section outside the story does not
    change what the stuck-entry query of the story returns. *)
Lemma select_stuck_update_complete (u : string) (now : Z) (s v : string)
    (story_id : string) (ss : list SectionRow) (sa : list AudioRow) :
  (forall sec, In sec ss -> ss_story_id sec = story_id -> ss_id sec <> s) ->
  select_stuck story_id ss (update_complete u now s v sa)
  = select_stuck story_id ss sa.
Proof.
  intros Hout. unfold select_stuck, update_complete.
  induction sa as [|a sa IH]; simpl; [reflexivity|]. rewrite IH. f_equal.
  destruct (matches_key s v a) eqn:Hm; [|reflexivity].
  apply matches_key_true in Hm. inversion Hm as [[Hs Hv]].
  assert (Hnone : forall (a' : AudioRow) (b : bool) (x : string),
            sa_section_id a' = s ->
            flat_map (fun sec => if joins story_id a' sec && b then [x] else []) ss
            = []).
  { intros a' b x Ha'. clear IH. induction ss as [|sec ss IHs]; simpl; [reflexivity|].
    rewrite IHs by (intros; apply Hout; auto; now right).
    destruct (joins story_id a' sec) eqn:Hj; [|reflexivity].
    apply joins_true in Hj as [H1 H2]. exfalso.
    apply (Hout sec); [now left | exact H2 | congruence]. }
  transitivity (@nil string).
  - exact (Hnone (set_complete u now a)
             (status_eqb (sa_status (set_complete u now a)) PROCESSING)
             (sa_section_id (set_complete u now a)) Hs).
  - symmetry.
    exact (Hnone a (status_eqb (sa_status a) PROCESSING) (sa_section_id a) Hs).
Qed.

Lemma find_map_same {A : Type} (p : A -> bool) (f : A -> A) (l : list A) :
  (forall x, p (f x) = p x) ->
  find p (map f l) = f <$> find p l.
Proof.
  intros Hp. induction l as [|x l IH]; simpl; [reflexivity|].
  rewrite Hp. destruct (p x); [reflexivity | exact IH].
Qed.

(** The loop of force-fail over other sections does not change what the
    query of force-complete reads. *)
Lemma select_voice_reset_loop (clock : nat -> Z) (s : string) (rows : list string) :
  ~ In s rows ->
  forall (k : nat) (sa : list AudioRow),
    select_processing_voice s (reset_loop clock k rows sa)
    = select_processing_voice s sa.
Proof.
  induction rows as [|y rows IH]; intros Hnin k sa; simpl; [reflexivity|].
  rewrite IH by (intros H; apply Hnin; now right).
  assert (Hy : y <> s) by (intros ->; apply Hnin; now left).
  unfold select_processing_voice, update_error.
  rewrite find_map_same.
  - destruct (find (is_processing_of s) sa) as [r|]; simpl; [|reflexivity].
    destruct (sa_section_id r =? y); reflexivity.
  - intros r. destruct (sa_section_id r =? y) eqn:Hr; [|reflexivity].
    apply String.eqb_eq in Hr. unfold is_processing_of. simpl.
    assert (Hf : (sa_section_id r =? s) = false)
      by (apply String.eqb_neq; congruence).
    now rewrite Hf.
Qed.

Lemma update_complete_update_error (u : string) (now t : Z) (s v y : string)
    (sa : list AudioRow) :
  y <> s ->
  update_complete u now s v (update_error t y sa)
  = update_error t y (update_complete u now s v sa).
Proof.
  intros Hy. unfold update_complete, update_error. rewrite !map_map.
  apply map_ext. intros r.
  assert (Hm' : matches_key s v (set_error t r) = matches_key s v r)
    by reflexivity.
  assert (Hr' : (sa_section_id (set_complete u now r) =? y)
                = (sa_section_id r =? y)) by reflexivity.
  destruct (sa_section_id r =? y) eqn:Hr; destruct (matches_key s v r) eqn:Hm;
    rewrite ?Hm', ?Hr', ?Hr, ?Hm; try reflexivity.
  apply String.eqb_eq in Hr. apply matches_key_true in Hm.
  inversion Hm. congruence.
Qed.

Lemma update_complete_reset_loop (u : string) (now : Z) (s v : string)
    (clock : nat -> Z) (rows : list string) :
  ~ In s rows ->
  forall (k : nat) (sa : list AudioRow),
    update_complete u now s v (reset_loop clock k rows sa)
    = reset_loop clock k rows (update_complete u now s v sa).
Proof.
  induction rows as [|y rows IH]; intros Hnin k sa; simpl; [reflexivity|].
  rewrite IH by (intros H; apply Hnin; now right).
  rewrite update_complete_update_error; [reflexivity|].
  intros ->. apply Hnin. now left.
Qed.

(** X7.  Force-complete for a section and force-fail for a story the
    section does not belong to commute: both orders leave the same database,
    and each script reports what it reports when run alone. *)
Theorem remedies_commute
    (audio_url : string) (now : Z) (clock : nat -> Z)
    (section_id story_id : string) (db : DB) :
  (forall sec : SectionRow,
     In sec (story_sections db) -> ss_story_id sec = story_id ->
     ss_id sec <> section_id) ->
  fst (reset_stuck_audio clock story_id
         (fst (recover_audio audio_url now section_id db)))
  = fst (recover_audio audio_url now section_id
           (fst (reset_stuck_audio clock story_id db)))
  /\ snd (reset_stuck_audio clock story_id
            (fst (recover_audio audio_url now section_id db)))
     = snd (reset_stuck_audio clock story_id db)
  /\ snd (recover_audio audio_url now section_id
            (fst (reset_stuck_audio clock story_id db)))
     = snd (recover_audio audio_url now section_id db).
Proof.
  intros Hout.
  set (rows := select_stuck story_id (story_sections db) (story_audio db)).
  assert (Hnin : ~ In section_id rows).
  { intros Hin. apply In_select_stuck in Hin as (a & sec & _ & Hsec & Hj & _ & Hs).
    apply joins_true in Hj as [H1 H2]. apply (Hout sec Hsec H2). congruence. }
  assert (Hsel : select_processing_voice section_id
                   (story_audio (fst (reset_stuck_audio clock story_id db)))
                 = select_processing_voice section_id (story_audio db)).
  { rewrite story_audio_reset. now apply select_voice_reset_loop. }
  destruct (select_processing_voice section_id (story_audio db)) as [v|] eqn:Hv.
  - rewrite (recover_audio_found _ _ _ _ _ Hv), (recover_audio_found _ _ _ _ _ Hsel).
    simpl. rewrite !fst_reset_stuck_audio, !snd_reset_stuck_audio. simpl.
    rewrite (select_stuck_update_complete _ _ _ _ _ _ _ Hout). fold rows.
    repeat split. unfold with_story_audio. simpl.
    now rewrite update_complete_reset_loop.
  - rewrite (recover_audio_not_found _ _ _ _ Hv),
      (recover_audio_not_found _ _ _ _ Hsel). simpl. auto.
Qed.

Lemma remedies_commute_witness :
  fst (reset_stuck_audio at_301 "story-1"
         (fst (recover_audio "/api/audio/c.wav" 300 "s0" db_two_stories)))
  = fst (recover_audio "/api/audio/c.wav" 300 "s0"
           (fst (reset_stuck_audio at_301 "story-1" db_two_stories)))
  /\ story_audio
       (fst (reset_stuck_audio at_301 "story-1"
               (fst (recover_audio "/api/audio/c.wav" 300 "s0" db_two_stories))))
     = [mkAudioRow "sec-1" "v-1" ERROR None
          (Some "Processing timed out (reset by admin)") 0 301 None;
        mkAudioRow "s0" "v-1" COMPLETE (Some "/api/audio/c.wav") None
          3 300 (Some 300)]
  /\ snd (reset_stuck_audio at_301 "story-1"
            (fst (recover_audio "/api/audio/c.wav" 300 "s0" db_two_stories)))
     = ResetSections ["sec-1"]
  /\ snd (recover_audio "/api/audio/c.wav" 300 "s0"
            (fst (reset_stuck_audio at_301 "story-1" db_two_stories)))
     = Recovered "v-1".
Proof.
  assert (Hout : forall sec : SectionRow,
            In sec (story_sections db_two_stories) ->
            ss_story_id sec = "story-1" -> ss_id sec <> "s0").
  { intros sec [<-|[<-|[<-|[<-|[]]]]] H; discriminate. }
  pose proof (remedies_commute "/api/audio/c.wav" 300 at_301 "s0" "story-1"
                db_two_stories Hout) as (Hdb & Hr1 & Hr2).
  split; [exact Hdb|]. split; [reflexivity|].
  split; [rewrite Hr1; reflexivity | rewrite Hr2; reflexivity].
Defined.

End RemedyRuns.

(** ** ORDER BY *)

Module SqlFacts.
Import Sql.

Section OrderByFacts.
Context {A : Type} (leb : A -> A -> bool).
Hypothesis leb_total : forall x y : A, leb x y = false -> leb y x = true.
Hypothesis leb_trans :
  forall x y z : A, leb x y = true -> leb y z = true -> leb x z = true.

Let before (x y : A) : Prop := leb x y = true.

Lemma insert_ordered_perm (x : A) (l : list A) :
  Permutation (insert_ordered leb x l) (x :: l).
Proof.
  induction l as [|y l IH]; simpl; [reflexivity|].
  destruct (leb x y); [reflexivity|]. rewrite IH. apply perm_swap.
Qed.

Lemma order_by_perm (l : list A) : Permutation (order_by leb l) l.
Proof.
  induction l as [|x l IH]; simpl; [reflexivity|].
  rewrite insert_ordered_perm. now constructor.
Qed.

Lemma insert_ordered_sorted (x : A) (l : list A) :
  StronglySorted before l -> StronglySorted before (insert_ordered leb x l).
Proof.
  induction l as [|y l IH]; simpl; intros Hs.
  - repeat constructor.
  - inversion Hs as [|? ? Hl Hall]; subst.
    destruct (leb x y) eqn:Hxy.
    + constructor; [exact Hs|]. constructor; [exact Hxy|].
      eapply Forall_impl; [exact Hall|]. intros z Hz.
      exact (leb_trans _ _ _ Hxy Hz).
    + constructor; [now apply IH|].
      rewrite insert_ordered_perm.
      constructor; [now apply leb_total | exact Hall].
Qed.

Lemma order_by_sorted (l : list A) : StronglySorted before (order_by leb l).
Proof.
  induction l as [|x l IH]; simpl; [constructor|].
  now apply insert_ordered_sorted.
Qed.

(** In a sorted list every element of a prefix comes before every element
    of the rest. *)
Lemma sorted_app_before (l1 l2 : list A) :
  StronglySorted before (l1 ++ l2) ->
  forall x y : A, In x l1 -> In y l2 -> leb x y = true.
Proof.
  induction l1 as [|a l1 IH]; simpl; intros Hs x y Hx Hy; [contradiction|].
  inversion Hs as [|? ? Hl Hall]; subst.
  destruct Hx as [<-|Hx]; [|now apply IH].
  rewrite Forall_forall in Hall. apply Hall.
  apply list_elem_of_In, in_or_app. now right.
Qed.

Lemma sorted_app_l (l1 l2 : list A) :
  StronglySorted before (l1 ++ l2) -> StronglySorted before l1.
Proof.
  induction l1 as [|a l1 IH]; simpl; intros Hs; [constructor|].
  inversion Hs as [|? ? Hl Hall]; subst. constructor; [now apply IH|].
  apply Forall_app in Hall. tauto.
Qed.

End OrderByFacts.

Lemma StronglySorted_weaken {A : Type} (R S : A -> A -> Prop) (l : list A) :
  (forall x y, R x y -> S x y) -> StronglySorted R l -> StronglySorted S l.
Proof.
  intros HRS. induction 1 as [|x l Hs IH Hall]; constructor; [exact IH|].
  eapply Forall_impl; [exact Hall|]. intros y. apply HRS.
Qed.

Lemma null_leb_total (a b : option Z) : null_leb a b = false -> null_leb b a = true.
Proof. destruct a, b; simpl; try congruence. intros H. lia. Qed.

Lemma null_leb_trans (a b c : option Z) :
  null_leb a b = true -> null_leb b c = true -> null_leb a c = true.
Proof. destruct a, b, c; simpl; try congruence. intros H1 H2. lia. Qed.

End SqlFacts.

(** ** check_recent.py *)

Module CheckRecentFacts.
Import Sql CheckRecent SqlFacts.

(** X10.  Each listing of [check_recent.py] shows the three most recent
    rows of its table, newest first, or the whole table when it has fewer
    than three rows: every row left out was created no later than every row
    listed, a NULL [created_at] counting as older than any time; the
    [diff] of a line is 0 when [created_at] is NULL or zero and
    [current_ts - created_at] otherwise. *)
Theorem recent_lines_newest {Row : Type} (created_at : Row -> option Z)
    (current_ts : Z) (table : list Row) :
  let lines := recent_lines created_at current_ts table in
  length lines = Nat.min 3 (length table) /\
  StronglySorted
    (fun x y => null_leb (created_at y) (created_at x) = true) (map fst lines) /\
  (exists rest : list Row,
     Permutation table (map fst lines ++ rest) /\
     forall (x y : Row), In x (map fst lines) -> In y rest ->
       null_leb (created_at y) (created_at x) = true) /\
  (forall (r : Row) (d : Z), In (r, d) lines ->
     match created_at r with
     | None => d = 0
     | Some t => d = if (t =? 0)%Z then 0 else current_ts - t
     end).
Proof.
  intros lines.
  assert (Hfst : map fst lines = recent created_at table).
  { unfold lines, recent_lines. rewrite map_map. simpl. apply map_id. }
  set (sorted := order_by (newer_first created_at) table).
  assert (Hsorted : StronglySorted (fun x y => newer_first created_at x y = true)
                      (firstn 3 sorted ++ skipn 3 sorted)).
  { rewrite firstn_skipn. apply order_by_sorted.
    - intros x y. apply null_leb_total.
    - intros x y z H1 H2. exact (null_leb_trans _ _ _ H2 H1). }
  split; [|split; [|split]].
  - unfold lines, recent_lines, recent. rewrite length_map, length_firstn.
    f_equal. apply Permutation_length, order_by_perm.
  - rewrite Hfst. exact (sorted_app_l _ _ _ Hsorted).
  - exists (skipn 3 sorted). rewrite Hfst. unfold recent. fold sorted. split.
    + rewrite firstn_skipn. symmetry. apply order_by_perm.
    + intros x y Hx Hy. exact (sorted_app_before _ _ _ Hsorted x y Hx Hy).
  - intros r d Hin. unfold lines, recent_lines in Hin.
    apply in_map_iff in Hin as (r0 & Heq & _). injection Heq as Hr Hd.
    subst r0. subst d. unfold diff. destruct (created_at r); reflexivity.
Qed.

Lemma recent_lines_newest_witness :
  length (recent_lines (fun t : option Z => t) 100 [Some 5; None; Some 40; Some 0; Some 7])
  = 3%nat.
Proof.
  apply (recent_lines_newest (fun t : option Z => t) 100
           [Some 5; None; Some 40; Some 0; Some 7]).
Defined.

End CheckRecentFacts.

(** ** verify_sections.py *)

Module VerifySectionsFacts.
Import Sql VerifySections SqlFacts.

(** The loop prints the rows up to the first NULL text. *)
Lemma print_sections_prefix (rows : list SectionText) :
  forall (lines : list (Z * Text)) (failed : bool),
    print_sections rows = (lines, failed) ->
    exists pre post : list SectionText,
      rows = (pre ++ post)%list /\ Forall2 line_of pre lines /\
      (failed = false -> post = []) /\
      (failed = true -> exists s rest, post = (s, None) :: rest).
Proof.
  induction rows as [|[s [text|]] rows IH]; simpl; intros lines failed.
  - intros [= <- <-]. exists [], [].
    split; [reflexivity|]. split; [constructor|]. split; [auto|discriminate].
  - destruct (print_sections rows) as [ls f] eqn:Hp. intros [= <- <-].
    destruct (IH ls f eq_refl) as (pre & post & -> & HF & Hok & Hfail).
    exists ((s, Some text) :: pre), post.
    split; [reflexivity|]. split; [|split; assumption].
    constructor; [|exact HF]. exists text. auto.
  - intros [= <- <-]. exists [], ((s, None) :: rows).
    split; [reflexivity|]. split; [constructor|]. split; [discriminate|eauto].
Qed.

Lemma lines_sorted (pre : list SectionText) (lines : list (Z * Text)) :
  Forall2 line_of pre lines ->
  StronglySorted (fun x y => index_leb x y = true) pre ->
  StronglySorted Z.le (map fst lines).
Proof.
  induction 1 as [|x l pre lines Hx HF IH]; simpl; intros Hs; [constructor|].
  inversion Hs as [|? ? Hpre Hall]; subst. constructor; [now apply IH|].
  destruct Hx as (text & _ & ->). simpl.
  clear IH Hs Hpre. induction HF as [|y l' pre lines Hy HF IH]; simpl;
    [constructor|].
  inversion Hall as [|? ? Hxy Hall']; subst.
  constructor; [|now apply IH].
  destruct Hy as (text' & _ & ->). simpl.
  unfold index_leb in Hxy. lia.
Qed.

Lemma select_story_id_none (slug : string) (stories : list StoryRow) :
  select_story_id slug stories = None <->
  forall st : StoryRow, In st stories -> st_slug st <> slug.
Proof.
  unfold select_story_id.
  destruct (find (fun s => st_slug s =? slug) stories) as [st|] eqn:Hf.
  - split; [discriminate|]. intros H. exfalso.
    apply find_some in Hf as [Hin Hs]. apply String.eqb_eq in Hs.
    exact (H st Hin Hs).
  - split; [intros _|reflexivity]. intros st Hin Hs.
    pose proof (find_none _ _ Hf st Hin) as Hn. simpl in Hn.
    apply String.eqb_neq in Hn. contradiction.
Qed.

(** X11.  [verify_sections.py] reports "Story not found" exactly when no
    story has the slug.  Otherwise it takes a story with the slug and
    reports the number of all sections of that story; taken in ascending
    [section_index], the sections up to the first one whose text is NULL
    are printed, one line each and in that order, with the section's index
    and the first 50 characters of its text; the section with the NULL text
    ends the loop with an error and nothing after it is printed.  So every
    section is printed exactly when no text of the story is NULL. *)
Theorem verify_sections_report (slug : string) (stories : list StoryRow)
    (sections : list SectionText) :
  (verify_sections slug stories sections = StoryNotFound <->
   forall st : StoryRow, In st stories -> st_slug st <> slug)
  /\
  forall (count : nat) (lines : list (Z * Text)) (failed : bool),
    verify_sections slug stories sections = FoundSections count lines failed ->
    exists (st : StoryRow) (pre post : list SectionText),
      In st stories /\ st_slug st = slug /\
      Permutation (pre ++ post)
        (List.filter (fun x => ss_story_id (fst x) =? st_id st) sections) /\
      StronglySorted
        (fun x y => ss_section_index (fst x) <= ss_section_index (fst y))
        (pre ++ post) /\
      count = length (pre ++ post) /\
      Forall2
        (fun (x : SectionText) (l : Z * Text) =>
           exists text : Text,
             snd x = Some text /\
             l = (ss_section_index (fst x), firstn 50 text))
        pre lines /\
      (failed = false -> post = []) /\
      (failed = true -> exists s rest, post = (s, None) :: rest) /\
      (failed = false <->
       forall x : SectionText,
         In x sections -> ss_story_id (fst x) = st_id st -> snd x <> None) /\
      (forall (n : Z) (t : Text), In (n, t) lines -> (length t <= 50)%nat).
Proof.
  unfold verify_sections. split.
  - rewrite <- select_story_id_none.
    destruct (select_story_id slug stories); [|tauto].
    destruct (print_sections _); split; discriminate.
  - intros count lines failed.
    destruct (select_story_id slug stories) as [story_id|] eqn:Hsel; [|discriminate].
    unfold select_story_id in Hsel.
    destruct (find (fun s => st_slug s =? slug) stories) as [st|] eqn:Hf;
      [|discriminate].
    injection Hsel as <-.
    apply find_some in Hf as [Hst Hslug]. apply String.eqb_eq in Hslug.
    set (mine := List.filter (fun x => ss_story_id (fst x) =? st_id st) sections).
    set (rows := select_sections (st_id st) sections).
    assert (Hperm : Permutation rows mine) by apply order_by_perm.
    assert (Hsorted : StronglySorted (fun x y => index_leb x y = true) rows).
    { apply order_by_sorted.
      - intros x y. unfold index_leb. lia.
      - intros x y z. unfold index_leb. lia. }
    assert (Hmine : forall x, In x rows <->
                      In x sections /\ ss_story_id (fst x) = st_id st).
    { intros x. split.
      - intros Hx. apply (Permutation_in _ Hperm) in Hx.
        apply filter_In in Hx as [Hx Hs]. apply String.eqb_eq in Hs. auto.
      - intros [Hx Hs]. apply (Permutation_in _ (Permutation_sym Hperm)).
        apply filter_In. split; [exact Hx|]. now apply String.eqb_eq. }
    destruct (print_sections rows) as [ls f] eqn:Hp. intros [= <- <- <-].
    destruct (print_sections_prefix rows ls f Hp)
      as (pre & post & Hrows & HF & Hok & Hfail).
    exists st, pre, post. rewrite <- Hrows.
    split; [exact Hst|]. split; [exact Hslug|]. split; [exact Hperm|].
    split.
    { eapply StronglySorted_weaken; [|exact Hsorted].
      intros x y Hxy. unfold index_leb in Hxy. lia. }
    split; [reflexivity|]. split; [exact HF|].
    split; [exact Hok|]. split; [exact Hfail|]. split.
    { split.
      - intros Hf0 x Hx Hstory Hnull. rewrite (Hok Hf0), app_nil_r in Hrows.
        assert (Hin : In x pre) by (rewrite <- Hrows; apply Hmine; auto).
        apply list_elem_of_In, list_elem_of_lookup in Hin as [k Hk].
        destruct (Forall2_lookup_l _ _ _ _ _ HF Hk) as (l & _ & text & Htext & _).
        congruence.
      - intros Hall. destruct f; [|reflexivity]. exfalso.
        destruct (Hfail eq_refl) as (s & rest & Hpost).
        assert (Hin : In (s, None) rows).
        { rewrite Hrows, Hpost. apply in_or_app. right. now left. }
        apply Hmine in Hin as [Hin Hs]. exact (Hall _ Hin Hs eq_refl). }
    intros n t Hin.
    apply list_elem_of_In, list_elem_of_lookup in Hin as [k Hk].
    destruct (Forall2_lookup_r _ _ _ _ _ HF Hk) as (x & Hx & text & Htext & Hl).
    injection Hl as -> ->. rewrite length_firstn. lia.
Qed.

Lemma verify_sections_report_witness :
  verify_sections "the-little-astronaut"
    [mkStoryRow "st-1" "the-sleepy-bear"]
    [(mkSectionRow "sec-1" "st-1" 0, Some [79; 110; 99; 101]%N)]
  = StoryNotFound
  /\
  exists (st : StoryRow) (pre post : list SectionText),
    In st [mkStoryRow "st-1" "the-sleepy-bear"] /\
    st_slug st = "the-sleepy-bear" /\
    (4 = length (pre ++ post))%nat /\
    Forall2
      (fun (x : SectionText) (l : Z * Text) =>
         exists text : Text,
           snd x = Some text /\
           l = (ss_section_index (fst x), firstn 50 text))
      pre [(0, [79; 110; 99; 101]%N); (1, [97]%N)] /\
    (exists s rest, post = (s, None) :: rest).
Proof.
  split.
  - apply (verify_sections_report "the-little-astronaut"
             [mkStoryRow "st-1" "the-sleepy-bear"]
             [(mkSectionRow "sec-1" "st-1" 0, Some [79; 110; 99; 101]%N)]).
    intros st [<-|[]]. discriminate.
  - destruct (proj2 (verify_sections_report "the-sleepy-bear"
                       [mkStoryRow "st-1" "the-sleepy-bear"]
                       [(mkSectionRow "sec-b" "st-1" 1, Some [97]%N);
                        (mkSectionRow "sec-d" "st-1" 3, Some [98]%N);
                        (mkSectionRow "sec-c" "st-1" 2, None);
                        (mkSectionRow "sec-a" "st-1" 0, Some [79; 110; 99; 101]%N);
                        (mkSectionRow "sec-x" "st-2" 0, Some [120]%N)])
                4%nat [(0, [79; 110; 99; 101]%N); (1, [97]%N)] true eq_refl)
      as (st & pre & post & Hst & Hslug & _ & _ & Hcount & HF & _ & Hfail & _).
    exists st, pre, post. repeat split; auto.
Defined.

End VerifySectionsFacts.

(** ** ml_api_v2.py *)

Module MlApiV2Facts.
Import MlApiV2.

(** X12.  The story endpoint of [ml_api_v2.py] leaves its handler either
    with the JSON answer or with an [HTTPException] of status 504 or 500,
    never with the 502 it raises itself: an answer of Ollama with a status
    other than 200 raises [HTTPException(502)] inside the [try] block, which
    [except Exception] catches and turns into a 500.  A 504 is given exactly
    when the request to Ollama timed out, and the JSON answer exactly when
    Ollama answered 200 with a body whose [response] field is a string or is
    missing (then the text is empty). *)
Theorem generate_story_statuses
    (post : string -> string -> Z -> Posted) (str : Exn -> string)
    (word_count : string -> nat) (request : StoryGenerateRequest) :
  let posted := post DEFAULT_MODEL (ollama_prompt request) (max_length request) in
  let result := generate_story post str word_count request in
  (forall e : Exn, result = inl e ->
     exists detail : string,
       e = HTTPException 504 detail \/ e = HTTPException 500 detail)
  /\
  (forall (status_code : Z) (text : string) (body : Body),
     posted = Responded status_code text body -> status_code <> 200 ->
     result = inl (HTTPException 500
                     (str (HTTPException 502 ("Ollama API error: " ++ text)))))
  /\
  ((exists detail : string, result = inl (HTTPException 504 detail)) <->
   posted = PostRaised TimeoutException)
  /\
  (forall response : StoryResponse,
     result = inr response <->
     exists (text : string) (field : option string),
       posted = Responded 200 text (BodyResponse field) /\
       response =
       {| r_text := match field with Some t => t | None => "" end;
          r_tokens_used := word_count (match field with Some t => t | None => "" end);
          r_style := style request;
          r_model := DEFAULT_MODEL;
          r_status := "completed" |}).
Proof.
  intros posted result. unfold result, generate_story, generate_story_body.
  fold posted.
  destruct posted as [e|status_code text body] eqn:Hp.
  - split; [|split; [|split]].
    + intros e' He'. destruct e; injection He' as <-; eauto.
    + discriminate.
    + split.
      * intros [detail Hd]. destruct e; try discriminate Hd. reflexivity.
      * intros [= ->]. eauto.
    + intros response. split; [destruct e; discriminate|].
      intros (t & f & Hr & _). discriminate Hr.
  - destruct (status_code =? 200)%Z eqn:Hc; simpl.
    + apply Z.eqb_eq in Hc. subst status_code.
      destruct body as [message|field].
      * split; [|split; [|split]].
        -- intros e' [= <-]. eauto.
        -- intros c t b [= <- _ _] Hne. contradiction.
        -- split; [intros [d Hd]; discriminate Hd | discriminate].
        -- intros response. split; [discriminate|].
           intros (t & f & Hr & _). discriminate Hr.
      * split; [|split; [|split]].
        -- discriminate.
        -- intros c t b [= <- _ _] Hne. contradiction.
        -- split; [intros [d Hd]; discriminate Hd | discriminate].
        -- intros response. split.
           ++ intros [= <-]. exists text, field. auto.
           ++ intros (t & f & [= _ <-] & ->). reflexivity.
    + apply Z.eqb_neq in Hc.
      split; [|split; [|split]].
      * intros e' [= <-]. eauto.
      * intros c t b [= <- <- _] _. reflexivity.
      * split; [intros [d Hd]; discriminate Hd | discriminate].
      * intros response. split; [discriminate|].
        intros (t & f & [= Hs _ _] & _). congruence.
Qed.

Lemma generate_story_statuses_witness :
  generate_story
    (fun _ _ _ => Responded 503 "model is loading" (BodyFails "not JSON"))
    (fun _ => "error") (fun _ => O)
    (mkStoryGenerateRequest "a bear who cannot sleep" 500 (Some "children"))
  = inl (HTTPException 500 "error").
Proof.
  pose proof (generate_story_statuses
                (fun _ _ _ => Responded 503 "model is loading" (BodyFails "not JSON"))
                (fun _ => "error") (fun _ => O)
                (mkStoryGenerateRequest "a bear who cannot sleep" 500
                   (Some "children"))) as (_ & H & _).
  apply (H 503 "model is loading" (BodyFails "not JSON")); [reflexivity|lia].
Defined.

End MlApiV2Facts.
